(** * babel-stream-talk: the WebRTC call core

    A shallow embedding of [src/utils/webrtc.ts] (classes [WebRTCManager] and
    [WebSocketManager]) and of the call logic of [src/components/VideoCall.tsx]
    (the signalling dispatcher, the caption list and the teardown).

    The browser objects the program drives ([RTCPeerConnection], [WebSocket],
    [MediaStream], [JSON]) are not part of the repository.  The peer connection
    is an interface ([Platform]): every theorem about the program holds for
    any implementation of it.  One implementation, [W3C.platform], follows the
    signalling state machine of the W3C WebRTC recommendation and is used to
    run the program on concrete inputs.  A [WebSocket] is its [readyState]
    and the frames sent on it.

    [async] functions are modelled as run to completion: an [await] is a
    sequencing point, and one handler finishes before the next event is
    delivered.

    VideoCall.tsx imports [WebSocketManager] from ['@/utils/websocket']; the
    class embedded here is the one webrtc.ts exports under that name. *)

From Stdlib Require Import String List Bool Arith Lia.
Import ListNotations.
Local Open Scope string_scope.

(** ** Values shared by both source files *)

(** [SignalingMessage['type']] of webrtc.ts: ['offer'], ['answer'],
    ['ice-candidate'], ['join-room'], ['peer-joined'], ['peer-left']. *)
Inductive MessageType :=
| Offer | Answer | IceCandidate | JoinRoom | PeerJoined | PeerLeft.

(** Errors that can be thrown.  [Error] is [new Error(message)], thrown by
    the program itself; the others come from the platform. *)
Inductive PlatformError :=
| InvalidStateError | TypeError | SyntaxError | OperationError.

Inductive Exn :=
| Error (message : string)
| Rejected (e : PlatformError).

(** [MediaStreamTrack]: the fields the program reads or writes. *)
Inductive TrackKind := audio | video.

Record MediaStreamTrack := mkTrack {
  track_id : nat;
  kind : TrackKind;
  enabled : bool;
  stopped : bool
}.

Definition MediaStream := list MediaStreamTrack.

(** [CaptionMessage] of webrtc.ts. *)
Record CaptionMessage := mkCaption {
  speaker : string;
  text : string;
  translation : string;
  timestamp : nat;
  language : string
}.

Inductive ReadyState := CONNECTING | OPEN | CLOSING | CLOSED.

Definition ReadyState_eqb (a b : ReadyState) : bool :=
  match a, b with
  | CONNECTING, CONNECTING | OPEN, OPEN | CLOSING, CLOSING | CLOSED, CLOSED => true
  | _, _ => false
  end.

Inductive ConnectionStatus := connecting | connected | disconnected.

(** ** The platform interface *)

Class Platform := {
  (** a JavaScript value of type [any]: negotiation blobs and candidates *)
  JSValue : Type;
  undefined : JSValue;
  (** the state of one [RTCPeerConnection] object *)
  RTCPeerConnection : Type;
  pc_new : RTCPeerConnection;
  pc_addTrack : MediaStreamTrack -> RTCPeerConnection -> RTCPeerConnection;
  pc_createOffer : RTCPeerConnection -> (PlatformError + JSValue) * RTCPeerConnection;
  pc_createAnswer : RTCPeerConnection -> (PlatformError + JSValue) * RTCPeerConnection;
  pc_setLocalDescription :
    JSValue -> RTCPeerConnection -> (PlatformError + unit) * RTCPeerConnection;
  (** [setRemoteDescription(new RTCSessionDescription(description))] *)
  pc_setRemoteDescription :
    JSValue -> RTCPeerConnection -> (PlatformError + unit) * RTCPeerConnection;
  (** [addIceCandidate(new RTCIceCandidate(candidate))] *)
  pc_addIceCandidate :
    JSValue -> RTCPeerConnection -> (PlatformError + unit) * RTCPeerConnection;
  pc_close : RTCPeerConnection -> RTCPeerConnection
}.

(** [event.data] of a [message] event, by what [JSON.parse] makes of it: the
    text of a value of the expected TypeScript type, or text that is not
    JSON.  (The program casts the parsed value to [SignalingMessage] or
    [CaptionMessage] without validation; ill-typed JSON is left out.) *)
Inductive EventData (A : Type) :=
| json (value : A)
| malformed (raw : string).
Arguments json {A} value.
Arguments malformed {A} raw.

(** How a call ends: it returns a value or throws. *)
Inductive Completion (A : Type) :=
| Normal (a : A)
| Throw (e : Exn).
Arguments Normal {A} a.
Arguments Throw {A} e.

Section Program.

Context {P : Platform}.

(** [SignalingMessage] of webrtc.ts; an absent [data] is [undefined]. *)
Record SignalingMessage := mkMessage {
  type : MessageType;
  roomId : string;
  data : JSValue
}.

(** What a [WebSocket] carries out: [JSON.stringify(message)] or a blob. *)
Inductive Frame :=
| TextFrame (message : SignalingMessage)
| BinaryFrame (audioBlob : string).

Record WebSocket := mkWebSocket {
  url : string;
  readyState : ReadyState;
  sent : list Frame
}.

Inductive Channel := Signaling | Captions.

(** Calls the program makes on platform objects, in the order it makes them. *)
Inductive Call :=
| TrackStop (id : nat)
| PcNew
| PcAddTrack (id : nat)
| PcCreateOffer
| PcCreateAnswer
| PcSetLocalDescription (d : JSValue)
| PcSetRemoteDescription (d : JSValue)
| PcAddIceCandidate (c : JSValue)
| PcClose
| WsNew (ch : Channel)
| WsSend (ch : Channel) (f : Frame)
| WsClose (ch : Channel).

Inductive LogEntry :=
| console_log (what : string)
| console_error (what : string) (error : Exn).

Record Toast := mkToast { title : string; description : string }.

(** The fields of [WebRTCManager], of [WebSocketManager] and of the
    [VideoCall] component, with what an observer sees ([console], [toasts])
    and the trace of platform calls. *)
Record World := mkWorld {
  peerConnection : option RTCPeerConnection;
  localStream : option MediaStream;
  signalingWs : option WebSocket;
  captionsWs : option WebSocket;
  backendUrl : string;
  isConnected : bool;
  connectionStatus : ConnectionStatus;
  captions : list CaptionMessage;
  console : list LogEntry;
  toasts : list Toast;
  location_href : string;
  calls : list Call
}.

Definition set_peerConnection (v : option RTCPeerConnection) (w : World) : World :=
  mkWorld v (localStream w) (signalingWs w) (captionsWs w) (backendUrl w)
    (isConnected w) (connectionStatus w) (captions w) (console w) (toasts w)
    (location_href w) (calls w).

Definition set_localStream (v : option MediaStream) (w : World) : World :=
  mkWorld (peerConnection w) v (signalingWs w) (captionsWs w) (backendUrl w)
    (isConnected w) (connectionStatus w) (captions w) (console w) (toasts w)
    (location_href w) (calls w).

Definition set_signalingWs (v : option WebSocket) (w : World) : World :=
  mkWorld (peerConnection w) (localStream w) v (captionsWs w) (backendUrl w)
    (isConnected w) (connectionStatus w) (captions w) (console w) (toasts w)
    (location_href w) (calls w).

Definition set_captionsWs (v : option WebSocket) (w : World) : World :=
  mkWorld (peerConnection w) (localStream w) (signalingWs w) v (backendUrl w)
    (isConnected w) (connectionStatus w) (captions w) (console w) (toasts w)
    (location_href w) (calls w).

Definition set_isConnected (v : bool) (w : World) : World :=
  mkWorld (peerConnection w) (localStream w) (signalingWs w) (captionsWs w)
    (backendUrl w) v (connectionStatus w) (captions w) (console w) (toasts w)
    (location_href w) (calls w).

Definition set_connectionStatus (v : ConnectionStatus) (w : World) : World :=
  mkWorld (peerConnection w) (localStream w) (signalingWs w) (captionsWs w)
    (backendUrl w) (isConnected w) v (captions w) (console w) (toasts w)
    (location_href w) (calls w).

Definition set_captions (v : list CaptionMessage) (w : World) : World :=
  mkWorld (peerConnection w) (localStream w) (signalingWs w) (captionsWs w)
    (backendUrl w) (isConnected w) (connectionStatus w) v (console w) (toasts w)
    (location_href w) (calls w).

Definition set_console (v : list LogEntry) (w : World) : World :=
  mkWorld (peerConnection w) (localStream w) (signalingWs w) (captionsWs w)
    (backendUrl w) (isConnected w) (connectionStatus w) (captions w) v (toasts w)
    (location_href w) (calls w).

Definition set_toasts (v : list Toast) (w : World) : World :=
  mkWorld (peerConnection w) (localStream w) (signalingWs w) (captionsWs w)
    (backendUrl w) (isConnected w) (connectionStatus w) (captions w) (console w) v
    (location_href w) (calls w).

Definition set_location_href (v : string) (w : World) : World :=
  mkWorld (peerConnection w) (localStream w) (signalingWs w) (captionsWs w)
    (backendUrl w) (isConnected w) (connectionStatus w) (captions w) (console w)
    (toasts w) v (calls w).

Definition set_calls (v : list Call) (w : World) : World :=
  mkWorld (peerConnection w) (localStream w) (signalingWs w) (captionsWs w)
    (backendUrl w) (isConnected w) (connectionStatus w) (captions w) (console w)
    (toasts w) (location_href w) v.

(** The component as first rendered: fresh managers, [useState] defaults. *)
Definition initial_world (backendUrl : string) : World :=
  {| peerConnection := None; localStream := None;
     signalingWs := None; captionsWs := None; backendUrl := backendUrl;
     isConnected := false; connectionStatus := connecting;
     captions := []; console := []; toasts := [];
     location_href := "/call"; calls := [] |}.

(** ** A state and exception monad *)

Definition M (A : Type) : Type := World -> Completion A * World.

Definition ret {A} (a : A) : M A := fun w => (Normal a, w).

Definition bind {A B} (m : M A) (k : A -> M B) : M B :=
  fun w => match m w with
           | (Normal a, w') => k a w'
           | (Throw e, w') => (Throw e, w')
           end.

Definition throw {A} (e : Exn) : M A := fun w => (Throw e, w).

(** [try { body } catch (error) { handler(error) }] *)
Definition try_catch {A} (body : M A) (handler : Exn -> M A) : M A :=
  fun w => match body w with
           | (Normal a, w') => (Normal a, w')
           | (Throw e, w') => handler e w'
           end.

Definition gets {A} (f : World -> A) : M A := fun w => (Normal (f w), w).
Definition modify (f : World -> World) : M unit := fun w => (Normal tt, f w).

Definition exec {A} (m : M A) (w : World) : World := snd (m w).
Definition result {A} (m : M A) (w : World) : Completion A := fst (m w).

End Program.

Declare Scope prog_scope.
Delimit Scope prog_scope with prog.
Notation "x <- m ;; k" := (bind m (fun x => k))
  (at level 61, m at next level, right associativity) : prog_scope.
Notation "m ;; k" := (bind m (fun _ => k))
  (at level 61, right associativity) : prog_scope.

Local Open Scope prog_scope.

(** [array.forEach(f)] *)
Fixpoint forEach {P : Platform} {A} (f : A -> M unit) (l : list A) : M unit :=
  match l with
  | [] => ret tt
  | x :: l' => f x ;; forEach f l'
  end.

Definition record_call {P : Platform} (c : Call) : M unit :=
  modify (fun w => set_calls (calls w ++ [c]) w).

Definition console_write {P : Platform} (entry : LogEntry) : M unit :=
  modify (fun w => set_console (console w ++ [entry]) w).

(** [JSON.parse(event.data)] *)
Definition JSON_parse {P : Platform} {A} (event_data : EventData A) : M A :=
  match event_data with
  | json value => ret value
  | malformed _ => throw (Rejected SyntaxError)
  end.

(** ** class WebRTCManager (webrtc.ts, lines 1-106) *)

Module WebRTCManager.
Section Methods.
Context {P : Platform}.

(** [await this.peerConnection.method(...)]: the call is recorded, the
    platform object moves to its next state, and a rejected promise is thrown
    at the [await]. *)
Definition await_pc {A} (c : Call)
    (method : RTCPeerConnection -> (PlatformError + A) * RTCPeerConnection) : M A :=
  fun w =>
    match peerConnection w with
    | None => (Throw (Rejected TypeError), w)
    | Some pc =>
        let (r, pc') := method pc in
        let w' := set_peerConnection (Some pc') (set_calls (calls w ++ [c]) w) in
        match r with
        | inl e => (Throw (Rejected e), w')
        | inr a => (Normal a, w')
        end
    end.

(** [getLocalStream]; [getUserMedia] is the outcome of the permission
    prompt. *)
Definition getLocalStream (getUserMedia : PlatformError + MediaStream)
  : M MediaStream :=
  try_catch
    (match getUserMedia with
     | inr stream => modify (set_localStream (Some stream)) ;; ret stream
     | inl e => throw (Rejected e)
     end)
    (fun error =>
       console_write (console_error "Error accessing media devices:" error) ;;
       throw error).

Definition addTrack (track : MediaStreamTrack) : M unit :=
  pc <- gets peerConnection ;;
  match pc with
  | Some pc =>
      record_call (PcAddTrack (track_id track)) ;;
      modify (set_peerConnection (Some (pc_addTrack track pc)))
  | None => ret tt
  end.

Definition createPeerConnection : M unit :=
  record_call PcNew ;;
  modify (set_peerConnection (Some pc_new)) ;;
  stream <- gets localStream ;;
  match stream with
  | Some tracks => forEach addTrack tracks
  | None => ret tt
  end.

Definition createOffer : M JSValue :=
  pc <- gets peerConnection ;;
  match pc with
  | None => throw (Error "Peer connection not initialized")
  | Some _ =>
      offer <- await_pc PcCreateOffer pc_createOffer ;;
      await_pc (PcSetLocalDescription offer) (pc_setLocalDescription offer) ;;
      ret offer
  end.

Definition createAnswer : M JSValue :=
  pc <- gets peerConnection ;;
  match pc with
  | None => throw (Error "Peer connection not initialized")
  | Some _ =>
      answer <- await_pc PcCreateAnswer pc_createAnswer ;;
      await_pc (PcSetLocalDescription answer) (pc_setLocalDescription answer) ;;
      ret answer
  end.

Definition setRemoteDescription (description : JSValue) : M unit :=
  pc <- gets peerConnection ;;
  match pc with
  | None => throw (Error "Peer connection not initialized")
  | Some _ =>
      await_pc (PcSetRemoteDescription description)
        (pc_setRemoteDescription description)
  end.

Definition addIceCandidate (candidate : JSValue) : M unit :=
  pc <- gets peerConnection ;;
  match pc with
  | None => throw (Error "Peer connection not initialized")
  | Some _ =>
      await_pc (PcAddIceCandidate candidate) (pc_addIceCandidate candidate)
  end.

Definition set_enabled (k : TrackKind) (v : bool) (t : MediaStreamTrack)
  : MediaStreamTrack :=
  match kind t, k with
  | audio, audio | video, video => mkTrack (track_id t) (kind t) v (stopped t)
  | _, _ => t
  end.

Definition toggleAudio (enabled : bool) : M unit :=
  modify (fun w => set_localStream
                     (option_map (map (set_enabled audio enabled)) (localStream w)) w).

Definition toggleVideo (enabled : bool) : M unit :=
  modify (fun w => set_localStream
                     (option_map (map (set_enabled video enabled)) (localStream w)) w).

(** [track.stop()]: the track object is shared, so the track of that
    identity is ended wherever the stream holds it. *)
Definition stop_track (t : MediaStreamTrack) : MediaStreamTrack :=
  mkTrack (track_id t) (kind t) (enabled t) true.

Definition track_stop (track : MediaStreamTrack) : M unit :=
  record_call (TrackStop (track_id track)) ;;
  modify (fun w =>
    set_localStream
      (option_map
         (map (fun t => if Nat.eqb (track_id t) (track_id track)
                        then stop_track t else t))
         (localStream w)) w).

Definition cleanup : M unit :=
  stream <- gets localStream ;;
  match stream with
  | Some tracks => forEach track_stop tracks
  | None => ret tt
  end ;;
  pc <- gets peerConnection ;;
  match pc with
  | Some pc =>
      record_call PcClose ;;
      modify (set_peerConnection (Some (pc_close pc)))
  | None => ret tt
  end ;;
  modify (set_localStream None) ;;
  modify (set_peerConnection None).

End Methods.
End WebRTCManager.

(** ** class WebSocketManager (webrtc.ts, lines 122-190) *)

Module WebSocketManager.
Section Methods.
Context {P : Platform}.

Definition socket (ch : Channel) (w : World) : option WebSocket :=
  match ch with
  | Signaling => signalingWs w
  | Captions => captionsWs w
  end.

Definition set_socket (ch : Channel) (v : option WebSocket) : World -> World :=
  match ch with
  | Signaling => set_signalingWs v
  | Captions => set_captionsWs v
  end.

(** [ws.send(frame)] on an open socket: the frame goes out. *)
Definition ws_send (f : Frame) (ws : WebSocket) : WebSocket :=
  mkWebSocket (url ws) (readyState ws) (sent ws ++ [f]).

(** [ws.close()]: starts the closing handshake of a socket that is
    connecting or open, and does nothing on one that is closing or closed. *)
Definition ws_close (ws : WebSocket) : WebSocket :=
  match readyState ws with
  | CONNECTING | OPEN => mkWebSocket (url ws) CLOSING (sent ws)
  | CLOSING | CLOSED => ws
  end.

Definition sendSignaling (message : SignalingMessage) : M unit :=
  ws <- gets signalingWs ;;
  match ws with
  | Some ws =>
      if ReadyState_eqb (readyState ws) OPEN then
        record_call (WsSend Signaling (TextFrame message)) ;;
        modify (set_signalingWs (Some (ws_send (TextFrame message) ws)))
      else ret tt
  | None => ret tt
  end.

Definition sendAudioChunk (audioBlob : string) : M unit :=
  ws <- gets captionsWs ;;
  match ws with
  | Some ws =>
      if ReadyState_eqb (readyState ws) OPEN then
        record_call (WsSend Captions (BinaryFrame audioBlob)) ;;
        modify (set_captionsWs (Some (ws_send (BinaryFrame audioBlob) ws)))
      else ret tt
  | None => ret tt
  end.

(** [connectSignaling]: the socket is created; its four handlers follow. *)
Definition connectSignaling : M unit :=
  record_call (WsNew Signaling) ;;
  modify (fun w =>
    set_signalingWs
      (Some (mkWebSocket (backendUrl w ++ "/ws/signaling") CONNECTING [])) w).

Definition signaling_onopen (roomId : string) : M unit :=
  console_write (console_log "Signaling WebSocket connected") ;;
  sendSignaling (mkMessage JoinRoom roomId undefined).

Definition signaling_onmessage (onMessage : SignalingMessage -> M unit)
    (event_data : EventData SignalingMessage) : M unit :=
  message <- JSON_parse event_data ;;
  onMessage message.

Definition signaling_onerror (error : Exn) : M unit :=
  console_write (console_error "Signaling WebSocket error:" error).

Definition signaling_onclose : M unit :=
  console_write (console_log "Signaling WebSocket closed").

Definition connectCaptions (roomId : string) : M unit :=
  record_call (WsNew Captions) ;;
  modify (fun w =>
    set_captionsWs
      (Some (mkWebSocket (backendUrl w ++ "/ws/captions/" ++ roomId)
               CONNECTING [])) w).

Definition captions_onopen : M unit :=
  console_write (console_log "Captions WebSocket connected").

Definition captions_onmessage (onCaption : CaptionMessage -> M unit)
    (event_data : EventData CaptionMessage) : M unit :=
  caption <- JSON_parse event_data ;;
  onCaption caption.

Definition captions_onerror (error : Exn) : M unit :=
  console_write (console_error "Captions WebSocket error:" error).

Definition captions_onclose : M unit :=
  console_write (console_log "Captions WebSocket closed").

(** [this.<socket>?.close()] *)
Definition close (ch : Channel) : M unit :=
  ws <- gets (socket ch) ;;
  match ws with
  | Some ws =>
      record_call (WsClose ch) ;;
      modify (set_socket ch (Some (ws_close ws)))
  | None => ret tt
  end.

Definition disconnect : M unit :=
  close Signaling ;;
  close Captions.

(** What the browser does to a socket between two handlers: the connection
    is established, or the closing handshake or a failure ends it. *)
Definition established (ch : Channel) : M unit :=
  modify (fun w =>
    set_socket ch
      (option_map (fun ws => mkWebSocket (url ws) OPEN (sent ws)) (socket ch w)) w).

Definition terminated (ch : Channel) : M unit :=
  modify (fun w =>
    set_socket ch
      (option_map (fun ws => mkWebSocket (url ws) CLOSED (sent ws)) (socket ch w)) w).

End Methods.
End WebSocketManager.

(** ** component VideoCall (VideoCall.tsx, lines 24-171 and 223, 242) *)

Module VideoCall.
Section Component.
Context {P : Platform}.

(** the [roomId] prop *)
Variable roomId : string.

Definition setIsConnected (v : bool) : M unit := modify (set_isConnected v).

Definition setConnectionStatus (v : ConnectionStatus) : M unit :=
  modify (set_connectionStatus v).

Definition setCaptions (f : list CaptionMessage -> list CaptionMessage) : M unit :=
  modify (fun w => set_captions (f (captions w)) w).

Definition toast (t : Toast) : M unit :=
  modify (fun w => set_toasts (toasts w ++ [t]) w).

Definition handleSignalingMessage (message : SignalingMessage) : M unit :=
  try_catch
    (match type message with
     | PeerJoined =>
         offer <- WebRTCManager.createOffer ;;
         WebSocketManager.sendSignaling (mkMessage Offer roomId offer)
     | Offer =>
         WebRTCManager.setRemoteDescription (data message) ;;
         answer <- WebRTCManager.createAnswer ;;
         WebSocketManager.sendSignaling (mkMessage Answer roomId answer)
     | Answer =>
         WebRTCManager.setRemoteDescription (data message)
     | IceCandidate =>
         WebRTCManager.addIceCandidate (data message)
     | PeerLeft =>
         setIsConnected false ;;
         setConnectionStatus disconnected ;;
         toast (mkToast "Peer disconnected"
                  "The other participant has left the call")
     | JoinRoom => ret tt
     end)
    (fun error =>
       console_write (console_error "Error handling signaling message:" error)).

Definition handleCaption (caption : CaptionMessage) : M unit :=
  setCaptions (fun prev => (prev ++ [caption])%list).

(** the [onIceCandidate] callback given to [createPeerConnection] *)
Definition onIceCandidate (candidate : JSValue) : M unit :=
  WebSocketManager.sendSignaling (mkMessage IceCandidate roomId candidate).

(** the [onTrack] callback, with the remote video element mounted *)
Definition onTrack : M unit :=
  setIsConnected true ;;
  setConnectionStatus connected ;;
  toast (mkToast "Peer connected"
           "You are now connected to another participant").

Definition initializeCall (getUserMedia : PlatformError + MediaStream) : M unit :=
  try_catch
    (WebRTCManager.getLocalStream getUserMedia ;;
     WebSocketManager.connectSignaling ;;
     WebSocketManager.connectCaptions roomId ;;
     WebRTCManager.createPeerConnection ;;
     setConnectionStatus connecting)
    (fun error =>
       console_write (console_error "Error initializing call:" error) ;;
       setConnectionStatus disconnected ;;
       toast (mkToast "Connection error"
                "Failed to initialize call. Please check your permissions.")).

Definition cleanup : M unit :=
  WebRTCManager.cleanup ;;
  WebSocketManager.disconnect ;;
  setIsConnected false ;;
  setConnectionStatus disconnected.

Definition endCall : M unit :=
  cleanup ;;
  modify (set_location_href "/").

(** The two filters of the render: [c.speaker === 'You'] under the local
    video, [c.speaker !== 'You'] under the remote one. *)
Definition is_You (c : CaptionMessage) : bool := String.eqb (speaker c) "You".

Definition You_captions (w : World) : list CaptionMessage :=
  filter is_You (captions w).

Definition Remote_captions (w : World) : list CaptionMessage :=
  filter (fun c => negb (is_You c)) (captions w).

(** The signalling socket delivers frames to [handleSignalingMessage], the
    captions socket to [handleCaption], as [initializeCall] registers them. *)
Definition signaling_message (event_data : EventData SignalingMessage) : M unit :=
  WebSocketManager.signaling_onmessage handleSignalingMessage event_data.

Definition captions_message (event_data : EventData CaptionMessage) : M unit :=
  WebSocketManager.captions_onmessage handleCaption event_data.

End Component.
End VideoCall.

(** ** A platform: the signalling state machine of the W3C recommendation

    [RTCPeerConnection] as the WebRTC recommendation (section 4.4) and JSEP
    (RFC 8829, sections 5.5 and 5.6) describe it, reduced to what the program
    reaches: the signalling state, the four description slots, the remote
    candidates accepted so far and the senders.  The program passes every
    blob it creates straight to [setLocalDescription], so the check that a
    local description is the last one created is left out. *)

Module W3C.

Inductive SdpType := sdp_offer | sdp_pranswer | sdp_answer | sdp_rollback.

Inductive Value :=
| VUndefined
| VDescription (ty : SdpType) (sdp : string)
| VCandidate (candidate : string) (sdpMLineIndex : nat).

Inductive SignalingState :=
| stable | have_local_offer | have_remote_offer
| have_local_pranswer | have_remote_pranswer | closed.

Record PeerConnection := mkPC {
  signalingState : SignalingState;
  currentLocalDescription : option (SdpType * string);
  pendingLocalDescription : option (SdpType * string);
  currentRemoteDescription : option (SdpType * string);
  pendingRemoteDescription : option (SdpType * string);
  remoteCandidates : list (string * nat);
  senders : list nat
}.

Definition localDescription (pc : PeerConnection) : option (SdpType * string) :=
  match pendingLocalDescription pc with
  | Some d => Some d
  | None => currentLocalDescription pc
  end.

Definition remoteDescription (pc : PeerConnection) : option (SdpType * string) :=
  match pendingRemoteDescription pc with
  | Some d => Some d
  | None => currentRemoteDescription pc
  end.

Definition new : PeerConnection :=
  mkPC stable None None None None [] [].

Definition addTrack (t : MediaStreamTrack) (pc : PeerConnection) : PeerConnection :=
  mkPC (signalingState pc) (currentLocalDescription pc)
    (pendingLocalDescription pc) (currentRemoteDescription pc)
    (pendingRemoteDescription pc) (remoteCandidates pc)
    (senders pc ++ [track_id t]).

Definition createOffer (pc : PeerConnection)
  : (PlatformError + Value) * PeerConnection :=
  match signalingState pc with
  | stable | have_local_offer => (inr (VDescription sdp_offer "v=0 offer"), pc)
  | _ => (inl InvalidStateError, pc)
  end.

Definition createAnswer (pc : PeerConnection)
  : (PlatformError + Value) * PeerConnection :=
  match signalingState pc with
  | have_remote_offer | have_local_pranswer =>
      (inr (VDescription sdp_answer "v=0 answer"), pc)
  | _ => (inl InvalidStateError, pc)
  end.

Definition with_state (s : SignalingState)
    (cl pl cr pr : option (SdpType * string)) (pc : PeerConnection)
  : PeerConnection :=
  mkPC s cl pl cr pr (remoteCandidates pc) (senders pc).

(** Rollback to [stable]: both pending descriptions are discarded. *)
Definition rollback (pc : PeerConnection) : PeerConnection :=
  with_state stable (currentLocalDescription pc) None
    (currentRemoteDescription pc) None pc.

Definition setLocalDescription (d : Value) (pc : PeerConnection)
  : (PlatformError + unit) * PeerConnection :=
  match d with
  | VDescription ty sdp =>
      match ty, signalingState pc with
      | _, closed => (inl InvalidStateError, pc)
      | sdp_offer, (stable | have_local_offer) =>
          (inr tt,
           with_state have_local_offer (currentLocalDescription pc)
             (Some (ty, sdp)) (currentRemoteDescription pc)
             (pendingRemoteDescription pc) pc)
      | sdp_answer, (have_remote_offer | have_local_pranswer) =>
          (inr tt,
           with_state stable (Some (ty, sdp)) None
             (pendingRemoteDescription pc) None pc)
      | sdp_pranswer, (have_remote_offer | have_local_pranswer) =>
          (inr tt,
           with_state have_local_pranswer (currentLocalDescription pc)
             (Some (ty, sdp)) (currentRemoteDescription pc)
             (pendingRemoteDescription pc) pc)
      | sdp_rollback, (have_local_offer | have_remote_offer) =>
          (inr tt, rollback pc)
      | _, _ => (inl InvalidStateError, pc)
      end
  | _ => (inl TypeError, pc)
  end.

Definition setRemoteDescription (d : Value) (pc : PeerConnection)
  : (PlatformError + unit) * PeerConnection :=
  match d with
  | VDescription ty sdp =>
      match ty, signalingState pc with
      | _, closed => (inl InvalidStateError, pc)
      | sdp_offer, (stable | have_remote_offer) =>
          (inr tt,
           with_state have_remote_offer (currentLocalDescription pc)
             (pendingLocalDescription pc) (currentRemoteDescription pc)
             (Some (ty, sdp)) pc)
      | sdp_offer, have_local_offer =>
          (* a remote offer over a local one rolls the local offer back *)
          (inr tt,
           with_state have_remote_offer (currentLocalDescription pc) None
             (currentRemoteDescription pc) (Some (ty, sdp)) pc)
      | sdp_answer, (have_local_offer | have_remote_pranswer) =>
          (inr tt,
           with_state stable (pendingLocalDescription pc) None
             (Some (ty, sdp)) None pc)
      | sdp_pranswer, (have_local_offer | have_remote_pranswer) =>
          (inr tt,
           with_state have_remote_pranswer (currentLocalDescription pc)
             (pendingLocalDescription pc) (currentRemoteDescription pc)
             (Some (ty, sdp)) pc)
      | sdp_rollback, (have_local_offer | have_remote_offer) =>
          (inr tt, rollback pc)
      | _, _ => (inl InvalidStateError, pc)
      end
  | _ => (inl TypeError, pc)
  end.

(** A candidate needs a remote description to attach to. *)
Definition addIceCandidate (c : Value) (pc : PeerConnection)
  : (PlatformError + unit) * PeerConnection :=
  match c with
  | VCandidate cand idx =>
      match signalingState pc, remoteDescription pc with
      | closed, _ => (inl InvalidStateError, pc)
      | _, None => (inl InvalidStateError, pc)
      | _, Some _ =>
          (inr tt,
           mkPC (signalingState pc) (currentLocalDescription pc)
             (pendingLocalDescription pc) (currentRemoteDescription pc)
             (pendingRemoteDescription pc)
             (remoteCandidates pc ++ [(cand, idx)]) (senders pc))
      end
  | _ => (inl TypeError, pc)
  end.

Definition close (pc : PeerConnection) : PeerConnection :=
  with_state closed (currentLocalDescription pc) (pendingLocalDescription pc)
    (currentRemoteDescription pc) (pendingRemoteDescription pc) pc.

Definition platform : Platform :=
  {| JSValue := Value;
     undefined := VUndefined;
     RTCPeerConnection := PeerConnection;
     pc_new := new;
     pc_addTrack := addTrack;
     pc_createOffer := createOffer;
     pc_createAnswer := createAnswer;
     pc_setLocalDescription := setLocalDescription;
     pc_setRemoteDescription := setRemoteDescription;
     pc_addIceCandidate := addIceCandidate;
     pc_close := close |}.

End W3C.

(** ** Reading a trace of platform calls *)

Section Traces.
Context {P : Platform}.

Definition is_TrackStop (c : Call) : bool :=
  match c with TrackStop _ => true | _ => false end.

Definition is_PcClose (c : Call) : bool :=
  match c with PcClose => true | _ => false end.

Definition is_WsClose (c : Call) : bool :=
  match c with WsClose _ => true | _ => false end.

Definition is_PcAddIceCandidate (c : Call) : bool :=
  match c with PcAddIceCandidate _ => true | _ => false end.

(** [precedes p q tr]: in [tr], no call of kind [p] comes after one of kind
    [q]. *)
Fixpoint precedes (p q : Call -> bool) (tr : list Call) : bool :=
  match tr with
  | [] => true
  | c :: tr' => (if q c then negb (existsb p tr') else true) && precedes p q tr'
  end.

(** The calls a computation makes when run from [w]. *)
Definition calls_of {A} (m : M A) (w : World) : list Call :=
  skipn (length (calls w)) (calls (exec m w)).

(** The world without its trace: what the program and the platform objects
    hold. *)
Definition state_of (w : World) : World := set_calls [] w.

Definition is_open (ch : Channel) (w : World) : bool :=
  match WebSocketManager.socket ch w with
  | Some ws => ReadyState_eqb (readyState ws) OPEN
  | None => false
  end.

(** Frames sent so far on a channel. *)
Definition sent_on (ch : Channel) (w : World) : list Frame :=
  match WebSocketManager.socket ch w with
  | Some ws => sent ws
  | None => []
  end.

Definition not_initialized : Exn := Error "Peer connection not initialized".

(** The platform objects a teardown finds, as the calls that release them:
    the tracks of the local stream, then the peer connection ... *)
Definition release_calls (w : World) : list Call :=
  (match localStream w with
   | Some tracks => map (fun t => TrackStop (track_id t)) tracks
   | None => []
   end ++
   match peerConnection w with
   | Some _ => [PcClose]
   | None => []
   end)%list.

(** ... and the two sockets. *)
Definition disconnect_calls (w : World) : list Call :=
  (match signalingWs w with
   | Some _ => [WsClose Signaling]
   | None => []
   end ++
   match captionsWs w with
   | Some _ => [WsClose Captions]
   | None => []
   end)%list.

(** The order of teardown the specification gives for [end()]: the peer
    connection is closed before any socket, and every socket before any track
    is stopped. *)
Definition specified_teardown_order (tr : list Call) : bool :=
  precedes is_PcClose is_WsClose tr && precedes is_WsClose is_TrackStop tr.

End Traces.

(** [Interleave l a b]: [l] is a merge of [a] and [b] that keeps the order
    of each. *)
Inductive Interleave {A : Type} : list A -> list A -> list A -> Prop :=
| Interleave_nil : Interleave [] [] []
| Interleave_left x l a b :
    Interleave l a b -> Interleave (x :: l) (x :: a) b
| Interleave_right x l a b :
    Interleave l a b -> Interleave (x :: l) a (x :: b).

(** ** A call between two browsers, on the W3C platform *)

Module Scenario.

#[local] Existing Instance W3C.platform.

Definition room : string := "room-1".

Definition mic : MediaStreamTrack := mkTrack 0 audio true false.
Definition cam : MediaStreamTrack := mkTrack 1 video true false.

Definition first_render : @World W3C.platform :=
  initial_world "ws://localhost:8000".

(** [initializeCall] with camera and microphone granted. *)
Definition started : @World W3C.platform :=
  exec (VideoCall.initializeCall room (inr [mic; cam])) first_render.

(** Both sockets have connected and their [onopen] handlers have run. *)
Definition ready : @World W3C.platform :=
  exec (WebSocketManager.established Signaling ;;
        WebSocketManager.signaling_onopen room ;;
        WebSocketManager.established Captions ;;
        WebSocketManager.captions_onopen) started.

Definition remote_offer : @SignalingMessage W3C.platform :=
  mkMessage Offer room (W3C.VDescription W3C.sdp_offer "v=0 remote offer").

Definition remote_answer : @SignalingMessage W3C.platform :=
  mkMessage Answer room (W3C.VDescription W3C.sdp_answer "v=0 remote answer").

Definition candidate1 : @JSValue W3C.platform :=
  W3C.VCandidate "candidate:1 1 udp 2122260223 192.0.2.1 54321 typ host" 0.

Definition candidate2 : @JSValue W3C.platform :=
  W3C.VCandidate "candidate:2 1 udp 1686052607 198.51.100.7 61000 typ srflx" 0.

Definition ice (r : string) (c : @JSValue W3C.platform)
  : @SignalingMessage W3C.platform :=
  mkMessage IceCandidate r c.

(** The answering side after the remote offer was handled. *)
Definition answered : @World W3C.platform :=
  exec (VideoCall.handleSignalingMessage room remote_offer) ready.

(** The call after [cleanup]. *)
Definition torn_down : @World W3C.platform :=
  exec (VideoCall.cleanup) ready.

Definition caption (who what : string) (t : nat) : CaptionMessage :=
  mkCaption who what what t "en".

End Scenario.

(** ** A browser that refuses local descriptions

    [setLocalDescription] may be rejected for reasons outside the signalling
    state machine (an [OperationError]).  This platform rejects every local
    description and is [W3C.platform] in all else. *)

Module Faulty.

Definition platform : Platform :=
  {| JSValue := W3C.Value;
     undefined := W3C.VUndefined;
     RTCPeerConnection := W3C.PeerConnection;
     pc_new := W3C.new;
     pc_addTrack := W3C.addTrack;
     pc_createOffer := W3C.createOffer;
     pc_createAnswer := W3C.createAnswer;
     pc_setLocalDescription := fun _ pc => (inl OperationError, pc);
     pc_setRemoteDescription := W3C.setRemoteDescription;
     pc_addIceCandidate := W3C.addIceCandidate;
     pc_close := W3C.close |}.

(** The call of [Scenario], started and with its signalling socket open, in
    that browser. *)
Definition ready : @World platform :=
  @exec platform unit
    (@bind platform unit unit
       (@VideoCall.initializeCall platform Scenario.room
          (inr [Scenario.mic; Scenario.cam]))
       (fun _ =>
          @bind platform unit unit
            (@WebSocketManager.established platform Signaling)
            (fun _ => @WebSocketManager.signaling_onopen platform Scenario.room)))
    (@initial_world platform "ws://localhost:8000").

Definition remote_offer : @SignalingMessage platform :=
  @mkMessage platform Offer Scenario.room
    (W3C.VDescription W3C.sdp_offer "v=0 remote offer").

End Faulty.

(** ** The handlers [createPeerConnection] registers (webrtc.ts, lines
    37-49) and the callbacks [initializeCall] gives it (VideoCall.tsx, lines
    59-76) *)

Module PeerConnectionEvents.
Section Handlers.
Context {P : Platform}.

(** [onicecandidate]: [event.candidate] is [null] at the end of gathering. *)
Definition onicecandidate (onIceCandidate : JSValue -> M unit)
    (event_candidate : option JSValue) : M unit :=
  match event_candidate with
  | Some candidate => onIceCandidate candidate
  | None => ret tt
  end.

(** [ontrack]: the callback is given [event.streams[0]], which the program
    only hands to the video element. *)
Definition ontrack (onTrack : M unit) : M unit := onTrack.

Definition oniceconnectionstatechange (iceConnectionState : string) : M unit :=
  console_write (console_log ("ICE connection state: " ++ iceConnectionState)).

(** The two callbacks of the component; [remoteVideoRef_current] tells
    whether the remote video element is mounted. *)
Definition local_candidate (roomId : string) (event_candidate : option JSValue)
  : M unit :=
  onicecandidate (VideoCall.onIceCandidate roomId) event_candidate.

Definition remote_track (remoteVideoRef_current : bool) : M unit :=
  ontrack (if remoteVideoRef_current then VideoCall.onTrack else ret tt).

End Handlers.
End PeerConnectionEvents.

(** ** The microphone and camera buttons (VideoCall.tsx, lines 31-32 and
    140-148) *)

Module Controls.
Section Buttons.
Context {P : Platform}.

(** the [useState] pair [isAudioEnabled], [isVideoEnabled] *)
Record State := mkState {
  isAudioEnabled : bool;
  isVideoEnabled : bool
}.

Definition initial : State := mkState true true.

Definition toggleAudio (s : State) : M State :=
  WebRTCManager.toggleAudio (negb (isAudioEnabled s)) ;;
  ret (mkState (negb (isAudioEnabled s)) (isVideoEnabled s)).

Definition toggleVideo (s : State) : M State :=
  WebRTCManager.toggleVideo (negb (isVideoEnabled s)) ;;
  ret (mkState (isAudioEnabled s) (negb (isVideoEnabled s))).

End Buttons.
End Controls.

(** ** Events in sequence *)

Section EventLoop.
Context {P : Platform}.

(** The event loop of the browser: handlers run one after the other, and an
    exception that leaves a handler is reported by the browser, after which
    the next handler runs. *)
Definition run_events (handlers : list (M unit)) (w : World) : World :=
  fold_left (fun w handler => exec handler w) handlers w.

(** The values of the frames that are JSON, in order. *)
Definition parsed {A} (frames : list (EventData A)) : list A :=
  flat_map (fun f => match f with json v => [v] | malformed _ => [] end) frames.

(** The candidates of a run of [icecandidate] events. *)
Definition gathered (events : list (option JSValue)) : list JSValue :=
  flat_map (fun e => match e with Some c => [c] | None => [] end) events.

(** [keeps R m]: running [m] takes a world to one related to it by [R]. *)
Definition keeps (R : World -> World -> Prop) {A} (m : M A) : Prop :=
  forall w, R w (exec m w).

(** The calls of a negotiation: the five methods of the peer connection and
    a send on the signalling socket. *)
Definition negotiation_call (c : Call) : bool :=
  match c with
  | PcCreateOffer | PcCreateAnswer | PcSetLocalDescription _
  | PcSetRemoteDescription _ | PcAddIceCandidate _ => true
  | WsSend Signaling (TextFrame _) => true
  | _ => false
  end.

(** A socket that has only sent more frames. *)
Definition socket_advanced (before after : option WebSocket) : Prop :=
  match before, after with
  | None, None => True
  | Some a, Some b =>
      url b = url a /\ readyState b = readyState a /\
      exists frames, sent b = (sent a ++ frames)%list
  | _, _ => False
  end.

(** [confined w w']: what a step of signalling may change.  It makes only
    negotiation calls, appends to the console and to the frames of the
    signalling socket, and may mark the call disconnected; it neither
    creates nor drops the peer connection, and leaves the media, the
    captions and the captions socket alone. *)
Definition confined (w w' : World) : Prop :=
  localStream w' = localStream w /\
  captions w' = captions w /\
  captionsWs w' = captionsWs w /\
  backendUrl w' = backendUrl w /\
  location_href w' = location_href w /\
  (peerConnection w' = None <-> peerConnection w = None) /\
  socket_advanced (signalingWs w) (signalingWs w') /\
  (exists entries, console w' = (console w ++ entries)%list) /\
  (exists tr, calls w' = (calls w ++ tr)%list /\
              forallb negotiation_call tr = true) /\
  (isConnected w' = true -> isConnected w = true) /\
  (connectionStatus w' = connected -> connectionStatus w = connected).

(** [within_negotiation w w']: [confined] without the two indicators, which
    the remote-track callback writes and which the platform may run while a
    negotiation method is awaited. *)
Definition within_negotiation (w w' : World) : Prop :=
  localStream w' = localStream w /\
  captions w' = captions w /\
  captionsWs w' = captionsWs w /\
  backendUrl w' = backendUrl w /\
  location_href w' = location_href w /\
  (peerConnection w' = None <-> peerConnection w = None) /\
  socket_advanced (signalingWs w) (signalingWs w') /\
  (exists entries, console w' = (console w ++ entries)%list) /\
  (exists tr, calls w' = (calls w ++ tr)%list /\
              forallb negotiation_call tr = true).

End EventLoop.

(** ** Everything that can happen to a mounted component

    After [initializeCall] the component is driven by the events of its two
    sockets and of its peer connection, by the two buttons, and by its
    unmounting or the end-call button. *)

Module Component.
Section Events.
Context {P : Platform}.

Inductive Event :=
| SocketOpened (ch : Channel)
| SocketClosed (ch : Channel)
| SocketError (ch : Channel) (error : Exn)
| SignalingFrame (event_data : EventData SignalingMessage)
| CaptionsFrame (event_data : EventData CaptionMessage)
| IceCandidateEvent (candidate : option JSValue)
| TrackEvent (remoteVideoRef_current : bool)
| IceConnectionStateChange (iceConnectionState : string)
| MicrophoneSet (enabled : bool)
| CameraSet (enabled : bool)
| Unmounted
| EndCallPressed.

Definition handle (roomId : string) (e : Event) : M unit :=
  match e with
  | SocketOpened Signaling =>
      WebSocketManager.established Signaling ;;
      WebSocketManager.signaling_onopen roomId
  | SocketOpened Captions =>
      WebSocketManager.established Captions ;;
      WebSocketManager.captions_onopen
  | SocketClosed Signaling =>
      WebSocketManager.terminated Signaling ;;
      WebSocketManager.signaling_onclose
  | SocketClosed Captions =>
      WebSocketManager.terminated Captions ;;
      WebSocketManager.captions_onclose
  | SocketError Signaling error => WebSocketManager.signaling_onerror error
  | SocketError Captions error => WebSocketManager.captions_onerror error
  | SignalingFrame event_data => VideoCall.signaling_message roomId event_data
  | CaptionsFrame event_data => VideoCall.captions_message event_data
  | IceCandidateEvent candidate =>
      PeerConnectionEvents.local_candidate roomId candidate
  | TrackEvent remoteVideoRef_current =>
      PeerConnectionEvents.remote_track remoteVideoRef_current
  | IceConnectionStateChange iceConnectionState =>
      PeerConnectionEvents.oniceconnectionstatechange iceConnectionState
  | MicrophoneSet enabled => WebRTCManager.toggleAudio enabled
  | CameraSet enabled => WebRTCManager.toggleVideo enabled
  | Unmounted => VideoCall.cleanup
  | EndCallPressed => VideoCall.endCall
  end.

(** The calls that make a platform object. *)
Definition creation_call (c : Call) : bool :=
  match c with
  | PcNew | WsNew _ => true
  | _ => false
  end.

(** [settled w w']: nothing was made and nothing was lost.  The transcript
    and the trace only grew, no socket and no peer connection was created,
    an absent peer connection, local stream or socket is still absent, and
    a socket that exists is at the same URL. *)
Definition settled (w w' : World) : Prop :=
  (exists more, captions w' = (captions w ++ more)%list) /\
  (exists tr, calls w' = (calls w ++ tr)%list /\
              existsb creation_call tr = false) /\
  (peerConnection w = None -> peerConnection w' = None) /\
  (localStream w = None -> localStream w' = None) /\
  option_map url (signalingWs w') = option_map url (signalingWs w) /\
  option_map url (captionsWs w') = option_map url (captionsWs w) /\
  backendUrl w' = backendUrl w.

(** The two indicators of the page agree: the remote pane shows 'Waiting
    for peer...' unless [isConnected], and the status label reads
    [connectionStatus]. *)
Definition indicators_agree (w : World) : Prop :=
  isConnected w = true <-> connectionStatus w = connected.

(** A step that left both indicators alone. *)
Definition indicators_untouched (w w' : World) : Prop :=
  isConnected w' = isConnected w /\ connectionStatus w' = connectionStatus w.

(** [indicators w w']: a step left both indicators alone, or set them
    together. *)
Definition indicators (w w' : World) : Prop :=
  (isConnected w' = isConnected w /\ connectionStatus w' = connectionStatus w) \/
  (isConnected w' = false /\ connectionStatus w' = disconnected) \/
  (isConnected w' = true /\ connectionStatus w' = connected).

End Events.
End Component.

(** ** What leaves the browser, and what negotiation depends on *)

Section Outlook.
Context {P : Platform}.

(** A text frame that carries an envelope of the room. *)
Definition for_room (room : string) (f : Frame) : bool :=
  match f with
  | TextFrame m => String.eqb (roomId m) room
  | BinaryFrame _ => false
  end.

(** [outbound room w w']: between [w] and [w'] nothing was sent on the
    captions socket, and what was sent on the signalling socket are
    envelopes of the room. *)
Definition outbound (room : string) (w w' : World) : Prop :=
  option_map sent (captionsWs w') = option_map sent (captionsWs w) /\
  match signalingWs w, signalingWs w' with
  | None, None => True
  | Some a, Some b =>
      exists frames,
        sent b = (sent a ++ frames)%list /\
        forallb (for_room room) frames = true
  | _, _ => False
  end.

(** Two worlds that hold the same peer connection and the same signalling
    socket, and have made the same calls since their traces were [ca] and
    [cb]. *)
Definition same_negotiation (ca cb : list Call) (w1 w2 : World) : Prop :=
  peerConnection w1 = peerConnection w2 /\
  signalingWs w1 = signalingWs w2 /\
  exists tr, calls w1 = (ca ++ tr)%list /\ calls w2 = (cb ++ tr)%list.

(** [alike R m]: from worlds related by [R], [m] ends in the same way and in
    worlds related by [R]. *)
Definition alike (R : World -> World -> Prop) {A} (m : M A) : Prop :=
  forall w1 w2, R w1 w2 ->
    result m w1 = result m w2 /\ R (exec m w1) (exec m w2).

End Outlook.

(** * Properties *)

Section Properties.
Context {P : Platform}.

(** ** Running the monad *)

Lemma bind_normal {A B} (m : M A) (k : A -> M B) (w w' : World) (a : A) :
  m w = (Normal a, w') -> bind m k w = k a w'.
Proof. intros H. unfold bind. rewrite H. reflexivity. Qed.

Lemma bind_throw {A B} (m : M A) (k : A -> M B) (w w' : World) (e : Exn) :
  m w = (Throw e, w') -> bind m k w = (Throw e, w').
Proof. intros H. unfold bind. rewrite H. reflexivity. Qed.

Lemma try_catch_normal {A} (body : M A) (h : Exn -> M A) (w w' : World) (a : A) :
  body w = (Normal a, w') -> try_catch body h w = (Normal a, w').
Proof. intros H. unfold try_catch. rewrite H. reflexivity. Qed.

Lemma try_catch_throw {A} (body : M A) (h : Exn -> M A) (w w' : World) (e : Exn) :
  body w = (Throw e, w') -> try_catch body h w = h e w'.
Proof. intros H. unfold try_catch. rewrite H. reflexivity. Qed.

(** ** The guard of the four negotiation methods *)

Lemma await_pc_some {A} (c : Call)
    (method : RTCPeerConnection -> (PlatformError + A) * RTCPeerConnection)
    (w : World) (pc : RTCPeerConnection) :
  peerConnection w = Some pc ->
  WebRTCManager.await_pc c method w =
    (match fst (method pc) with
     | inl e => Throw (Rejected e)
     | inr a => Normal a
     end,
     set_peerConnection (Some (snd (method pc))) (set_calls (calls w ++ [c]) w)).
Proof.
  intros H. unfold WebRTCManager.await_pc. rewrite H.
  destruct (method pc) as [[e | a] pc']; reflexivity.
Qed.

Lemma createOffer_none (w : World) :
  peerConnection w = None ->
  WebRTCManager.createOffer w = (Throw not_initialized, w).
Proof.
  intros H. unfold WebRTCManager.createOffer, bind, gets. rewrite H. reflexivity.
Qed.

Lemma createAnswer_none (w : World) :
  peerConnection w = None ->
  WebRTCManager.createAnswer w = (Throw not_initialized, w).
Proof.
  intros H. unfold WebRTCManager.createAnswer, bind, gets. rewrite H. reflexivity.
Qed.

Lemma setRemoteDescription_none (d : JSValue) (w : World) :
  peerConnection w = None ->
  WebRTCManager.setRemoteDescription d w = (Throw not_initialized, w).
Proof.
  intros H. unfold WebRTCManager.setRemoteDescription, bind, gets.
  rewrite H. reflexivity.
Qed.

Lemma addIceCandidate_none (c : JSValue) (w : World) :
  peerConnection w = None ->
  WebRTCManager.addIceCandidate c w = (Throw not_initialized, w).
Proof.
  intros H. unfold WebRTCManager.addIceCandidate, bind, gets.
  rewrite H. reflexivity.
Qed.

(** With a peer connection, [createOffer] is the two platform calls. *)
Lemma createOffer_some (w : World) (pc : RTCPeerConnection) :
  peerConnection w = Some pc ->
  WebRTCManager.createOffer w =
    match pc_createOffer pc with
    | (inl e, pc1) =>
        (Throw (Rejected e),
         set_peerConnection (Some pc1) (set_calls (calls w ++ [PcCreateOffer]) w))
    | (inr offer, pc1) =>
        let (r, pc2) := pc_setLocalDescription offer pc1 in
        (match r with inl e => Throw (Rejected e) | inr _ => Normal offer end,
         set_peerConnection (Some pc2)
           (set_calls (calls w ++ [PcCreateOffer; PcSetLocalDescription offer]) w))
    end.
Proof.
  intros H. unfold WebRTCManager.createOffer, bind, gets. rewrite H.
  rewrite (await_pc_some _ _ _ _ H).
  destruct (pc_createOffer pc) as [[e | o] pc1]; simpl; [reflexivity |].
  unfold WebRTCManager.await_pc; simpl.
  destruct (pc_setLocalDescription o pc1) as [[e | []] pc2]; simpl;
    rewrite <- app_assoc; reflexivity.
Qed.

Lemma createAnswer_some (w : World) (pc : RTCPeerConnection) :
  peerConnection w = Some pc ->
  WebRTCManager.createAnswer w =
    match pc_createAnswer pc with
    | (inl e, pc1) =>
        (Throw (Rejected e),
         set_peerConnection (Some pc1) (set_calls (calls w ++ [PcCreateAnswer]) w))
    | (inr answer, pc1) =>
        let (r, pc2) := pc_setLocalDescription answer pc1 in
        (match r with inl e => Throw (Rejected e) | inr _ => Normal answer end,
         set_peerConnection (Some pc2)
           (set_calls (calls w ++ [PcCreateAnswer; PcSetLocalDescription answer]) w))
    end.
Proof.
  intros H. unfold WebRTCManager.createAnswer, bind, gets. rewrite H.
  rewrite (await_pc_some _ _ _ _ H).
  destruct (pc_createAnswer pc) as [[e | o] pc1]; simpl; [reflexivity |].
  unfold WebRTCManager.await_pc; simpl.
  destruct (pc_setLocalDescription o pc1) as [[e | []] pc2]; simpl;
    rewrite <- app_assoc; reflexivity.
Qed.

Lemma setRemoteDescription_some (d : JSValue) (w : World) (pc : RTCPeerConnection) :
  peerConnection w = Some pc ->
  WebRTCManager.setRemoteDescription d w =
    (match fst (pc_setRemoteDescription d pc) with
     | inl e => Throw (Rejected e)
     | inr _ => Normal tt
     end,
     set_peerConnection (Some (snd (pc_setRemoteDescription d pc)))
       (set_calls (calls w ++ [PcSetRemoteDescription d]) w)).
Proof.
  intros H. unfold WebRTCManager.setRemoteDescription, bind, gets. rewrite H.
  rewrite (await_pc_some _ _ _ _ H).
  destruct (pc_setRemoteDescription d pc) as [[e | []] pc1]; reflexivity.
Qed.

Lemma addIceCandidate_some (c : JSValue) (w : World) (pc : RTCPeerConnection) :
  peerConnection w = Some pc ->
  WebRTCManager.addIceCandidate c w =
    (match fst (pc_addIceCandidate c pc) with
     | inl e => Throw (Rejected e)
     | inr _ => Normal tt
     end,
     set_peerConnection (Some (snd (pc_addIceCandidate c pc)))
       (set_calls (calls w ++ [PcAddIceCandidate c]) w)).
Proof.
  intros H. unfold WebRTCManager.addIceCandidate, bind, gets. rewrite H.
  rewrite (await_pc_some _ _ _ _ H).
  destruct (pc_addIceCandidate c pc) as [[e | []] pc1]; reflexivity.
Qed.

(** ** Teardown *)

Lemma forEach_track_stop (tracks : list MediaStreamTrack) (w : World) :
  exists s,
    forEach WebRTCManager.track_stop tracks w =
      (Normal tt,
       set_localStream s
         (set_calls (calls w ++ map (fun t => TrackStop (track_id t)) tracks) w)).
Proof.
  revert w. induction tracks as [| t tracks IH]; intros w.
  - exists (localStream w). destruct w; simpl. rewrite app_nil_r. reflexivity.
  - simpl forEach.
    pose (w1 := exec (WebRTCManager.track_stop t) w).
    destruct (IH w1) as [s Hs]. exists s.
    assert (H1 : WebRTCManager.track_stop t w = (Normal tt, w1)) by reflexivity.
    rewrite (bind_normal _ _ _ _ _ H1), Hs.
    unfold w1, exec, WebRTCManager.track_stop, bind, record_call, modify; simpl.
    rewrite <- app_assoc. reflexivity.
Qed.

Lemma WebRTCManager_cleanup_spec (w : World) :
  WebRTCManager.cleanup w =
    (Normal tt,
     set_peerConnection None
       (set_localStream None (set_calls (calls w ++ release_calls w) w))).
Proof.
  unfold WebRTCManager.cleanup, release_calls.
  unfold bind at 1. unfold gets at 1.
  destruct (localStream w) as [tracks |] eqn:Hs.
  - destruct (forEach_track_stop tracks w) as [s Hf].
    erewrite bind_normal by exact Hf.
    unfold bind, gets, record_call, modify; simpl.
    destruct (peerConnection w) as [pc |]; simpl.
    + rewrite <- app_assoc. reflexivity.
    + rewrite app_nil_r. reflexivity.
  - unfold bind, gets, record_call, modify, ret; simpl.
    destruct (peerConnection w) as [pc |]; simpl.
    + reflexivity.
    + rewrite app_nil_r. destruct w; reflexivity.
Qed.

Lemma close_spec (ch : Channel) (w : World) :
  WebSocketManager.close ch w =
    (Normal tt,
     WebSocketManager.set_socket ch
       (option_map WebSocketManager.ws_close (WebSocketManager.socket ch w))
       (set_calls
          (calls w ++
           match WebSocketManager.socket ch w with
           | Some _ => [WsClose ch]
           | None => []
           end) w)).
Proof.
  unfold WebSocketManager.close, bind, gets, record_call, modify, ret.
  destruct (WebSocketManager.socket ch w) as [ws |] eqn:Hs; simpl.
  - reflexivity.
  - rewrite app_nil_r. destruct ch, w; simpl in *; subst; reflexivity.
Qed.

Lemma disconnect_spec (w : World) :
  WebSocketManager.disconnect w =
    (Normal tt,
     set_captionsWs (option_map WebSocketManager.ws_close (captionsWs w))
       (set_signalingWs (option_map WebSocketManager.ws_close (signalingWs w))
          (set_calls (calls w ++ disconnect_calls w) w))).
Proof.
  unfold WebSocketManager.disconnect.
  erewrite bind_normal by apply close_spec.
  rewrite close_spec. unfold disconnect_calls; simpl.
  rewrite <- app_assoc. reflexivity.
Qed.

Lemma VideoCall_cleanup_spec (w : World) :
  VideoCall.cleanup w =
    (Normal tt,
     set_connectionStatus disconnected
       (set_isConnected false
          (set_captionsWs (option_map WebSocketManager.ws_close (captionsWs w))
             (set_signalingWs
                (option_map WebSocketManager.ws_close (signalingWs w))
                (set_peerConnection None
                   (set_localStream None
                      (set_calls
                         (calls w ++ release_calls w ++ disconnect_calls w)
                         w))))))).
Proof.
  unfold VideoCall.cleanup.
  erewrite bind_normal by apply WebRTCManager_cleanup_spec.
  erewrite bind_normal by apply disconnect_spec.
  unfold bind, VideoCall.setIsConnected, VideoCall.setConnectionStatus, modify.
  unfold disconnect_calls; simpl.
  rewrite <- app_assoc. reflexivity.
Qed.

Lemma skipn_length_app {A} (l r : list A) : skipn (length l) (l ++ r) = r.
Proof. induction l as [| x l IH]; simpl; [reflexivity | exact IH]. Qed.

Lemma calls_of_app {A} (m : M A) (w : World) (tr : list Call) :
  calls (exec m w) = (calls w ++ tr)%list -> calls_of m w = tr.
Proof. intros H. unfold calls_of. rewrite H. apply skipn_length_app. Qed.

Lemma ws_close_idempotent (ws : WebSocket) :
  WebSocketManager.ws_close (WebSocketManager.ws_close ws) =
  WebSocketManager.ws_close ws.
Proof. destruct ws as [u [] s]; reflexivity. Qed.

Lemma forEach_addTrack (tracks : list MediaStreamTrack) (w : World)
    (pc : RTCPeerConnection) :
  peerConnection w = Some pc ->
  exists pc' w',
    forEach WebRTCManager.addTrack tracks w = (Normal tt, w') /\
    peerConnection w' = Some pc'.
Proof.
  revert w pc. induction tracks as [| t tracks IH]; intros w pc H.
  - exists pc, w. split; [reflexivity | exact H].
  - simpl forEach.
    pose (w1 := set_peerConnection (Some (pc_addTrack t pc))
                  (set_calls (calls w ++ [PcAddTrack (track_id t)]) w)).
    assert (H1 : WebRTCManager.addTrack t w = (Normal tt, w1)).
    { unfold WebRTCManager.addTrack, bind, gets. rewrite H. reflexivity. }
    rewrite (bind_normal _ _ _ _ _ H1).
    apply (IH w1 (pc_addTrack t pc)). reflexivity.
Qed.

Lemma createPeerConnection_some (w : World) :
  peerConnection (exec WebRTCManager.createPeerConnection w) <> None.
Proof.
  unfold exec, WebRTCManager.createPeerConnection.
  unfold bind at 1. unfold record_call at 1. unfold modify at 1.
  unfold bind at 1. unfold modify at 1.
  unfold bind at 1. unfold gets at 1. cbv beta iota.
  set (w1 := set_peerConnection (Some pc_new) _).
  destruct (localStream w1) as [tracks |].
  - destruct (forEach_addTrack tracks w1 pc_new eq_refl) as (pc' & w' & Hf & Hp).
    rewrite Hf. simpl. rewrite Hp. discriminate.
  - simpl. discriminate.
Qed.

(** C10. Each of [createOffer], [createAnswer], [setRemoteDescription] and
    [addIceCandidate] throws the error 'Peer connection not initialized'
    exactly when the manager holds no peer connection, and then leaves the
    whole state as it was.  The manager holds none before
    [createPeerConnection] and after [cleanup], and holds one after
    [createPeerConnection]. *)
Theorem C10_not_initialized_iff_no_peer_connection (w : World) :
  (result WebRTCManager.createOffer w = Throw not_initialized
     <-> peerConnection w = None) /\
  (result WebRTCManager.createAnswer w = Throw not_initialized
     <-> peerConnection w = None) /\
  (forall d, result (WebRTCManager.setRemoteDescription d) w = Throw not_initialized
     <-> peerConnection w = None) /\
  (forall c, result (WebRTCManager.addIceCandidate c) w = Throw not_initialized
     <-> peerConnection w = None) /\
  (peerConnection w = None ->
     exec WebRTCManager.createOffer w = w /\
     exec WebRTCManager.createAnswer w = w /\
     (forall d, exec (WebRTCManager.setRemoteDescription d) w = w) /\
     (forall c, exec (WebRTCManager.addIceCandidate c) w = w)) /\
  (forall url, peerConnection (initial_world url) = None) /\
  peerConnection (exec WebRTCManager.cleanup w) = None /\
  peerConnection (exec WebRTCManager.createPeerConnection w) <> None.
Proof.
  split; [split | split; [split | split; [intros d; split | split;
    [intros c; split | split; [intros H0; split; [| split; [| split]] |
       split; [| split]]]]]].
  - destruct (peerConnection w) as [pc |] eqn:H; [| reflexivity].
    unfold result. rewrite (createOffer_some _ _ H).
    destruct (pc_createOffer pc) as [[e | o] pc1]; [discriminate |].
    destruct (pc_setLocalDescription o pc1) as [[e | u] pc2]; discriminate.
  - intros H. unfold result. rewrite (createOffer_none _ H). reflexivity.
  - destruct (peerConnection w) as [pc |] eqn:H; [| reflexivity].
    unfold result. rewrite (createAnswer_some _ _ H).
    destruct (pc_createAnswer pc) as [[e | o] pc1]; [discriminate |].
    destruct (pc_setLocalDescription o pc1) as [[e | u] pc2]; discriminate.
  - intros H. unfold result. rewrite (createAnswer_none _ H). reflexivity.
  - destruct (peerConnection w) as [pc |] eqn:H; [| reflexivity].
    unfold result. rewrite (setRemoteDescription_some _ _ _ H).
    destruct (pc_setRemoteDescription d pc) as [[e | u] pc1]; discriminate.
  - intros H. unfold result. rewrite (setRemoteDescription_none _ _ H). reflexivity.
  - destruct (peerConnection w) as [pc |] eqn:H; [| reflexivity].
    unfold result. rewrite (addIceCandidate_some _ _ _ H).
    destruct (pc_addIceCandidate c pc) as [[e | u] pc1]; discriminate.
  - intros H. unfold result. rewrite (addIceCandidate_none _ _ H). reflexivity.
  - unfold exec. rewrite createOffer_none by assumption. reflexivity.
  - unfold exec. rewrite createAnswer_none by assumption. reflexivity.
  - intros d. unfold exec. rewrite setRemoteDescription_none by assumption.
    reflexivity.
  - intros c. unfold exec. rewrite addIceCandidate_none by assumption.
    reflexivity.
  - intros url. reflexivity.
  - unfold exec. rewrite WebRTCManager_cleanup_spec. reflexivity.
  - apply createPeerConnection_some.
Qed.

Lemma cleanup_calls (w : World) :
  calls_of VideoCall.cleanup w =
    (match localStream w with
     | Some tracks => map (fun t => TrackStop (track_id t)) tracks
     | None => []
     end ++
     match peerConnection w with Some _ => [PcClose] | None => [] end ++
     match signalingWs w with Some _ => [WsClose Signaling] | None => [] end ++
     match captionsWs w with Some _ => [WsClose Captions] | None => [] end)%list.
Proof.
  apply calls_of_app. unfold exec. rewrite VideoCall_cleanup_spec.
  unfold release_calls, disconnect_calls. rewrite <- app_assoc. reflexivity.
Qed.

Lemma cleanup_releases (w : World) :
  localStream (exec VideoCall.cleanup w) = None /\
  peerConnection (exec VideoCall.cleanup w) = None.
Proof.
  unfold exec. rewrite VideoCall_cleanup_spec. split; reflexivity.
Qed.

Lemma precedes_after_tracks (q : Call -> bool) (tracks : list MediaStreamTrack)
    (rest : list Call) :
  (forall id, q (TrackStop id) = false) ->
  precedes is_TrackStop q
    (map (fun t => TrackStop (track_id t)) tracks ++ rest) =
  precedes is_TrackStop q rest.
Proof.
  intros Hq. induction tracks as [| t tracks IH]; simpl.
  - reflexivity.
  - rewrite Hq. exact IH.
Qed.

(** C5 (as the code has it). [cleanup] tears the call down in this
    order: every track of the local stream is stopped, then the peer
    connection is closed, then the signalling socket, then the captions
    socket; each step is skipped when its object is absent.  So no track is
    stopped after the peer connection or a socket is closed, and the peer
    connection is not closed after a socket. *)
Theorem C5_teardown_order (w : World) :
  let tr := calls_of VideoCall.cleanup w in
  tr =
    (match localStream w with
     | Some tracks => map (fun t => TrackStop (track_id t)) tracks
     | None => []
     end ++
     match peerConnection w with Some _ => [PcClose] | None => [] end ++
     match signalingWs w with Some _ => [WsClose Signaling] | None => [] end ++
     match captionsWs w with Some _ => [WsClose Captions] | None => [] end)%list /\
  precedes is_TrackStop is_PcClose tr = true /\
  precedes is_TrackStop is_WsClose tr = true /\
  precedes is_PcClose is_WsClose tr = true.
Proof.
  intros tr. subst tr. rewrite cleanup_calls.
  split; [reflexivity |].
  assert (Hrest :
    forall tracks : list MediaStreamTrack,
      precedes is_PcClose is_WsClose
        (map (fun t => TrackStop (track_id t)) tracks ++
         match peerConnection w with Some _ => [PcClose] | None => [] end ++
         match signalingWs w with Some _ => [WsClose Signaling] | None => [] end ++
         match captionsWs w with Some _ => [WsClose Captions] | None => [] end)
      = true).
  { induction tracks as [| t tracks IH]; simpl.
    - destruct (peerConnection w), (signalingWs w), (captionsWs w); reflexivity.
    - exact IH. }
  destruct (localStream w) as [tracks |].
  - rewrite !precedes_after_tracks by reflexivity.
    split; [| split; [| apply Hrest]];
      destruct (peerConnection w), (signalingWs w), (captionsWs w); reflexivity.
  - split; [| split; [| apply (Hrest [])]];
      destruct (peerConnection w), (signalingWs w), (captionsWs w); reflexivity.
Qed.

(** C7. Tearing down twice throws nothing, and leaves the program and every
    platform object as one teardown does: the second [cleanup] stops no track
    and closes no peer connection; it calls [close()] again on the sockets,
    which are closing already and stay as they are.  A second
    [WebRTCManager.cleanup] does nothing at all. *)
Theorem C7_teardown_idempotent (w : World) :
  result (VideoCall.cleanup ;; VideoCall.cleanup) w = Normal tt /\
  state_of (exec VideoCall.cleanup (exec VideoCall.cleanup w)) =
    state_of (exec VideoCall.cleanup w) /\
  existsb is_TrackStop (calls_of VideoCall.cleanup (exec VideoCall.cleanup w))
    = false /\
  existsb is_PcClose (calls_of VideoCall.cleanup (exec VideoCall.cleanup w))
    = false /\
  WebRTCManager.cleanup (exec WebRTCManager.cleanup w) =
    (Normal tt, exec WebRTCManager.cleanup w).
Proof.
  split; [| split; [| split; [| split]]].
  - unfold result. erewrite bind_normal by apply VideoCall_cleanup_spec.
    rewrite VideoCall_cleanup_spec. reflexivity.
  - unfold exec. rewrite !VideoCall_cleanup_spec.
    destruct w as [pc ls sws cws url ic cs caps con ts loc cl].
    lazy -[option_map WebSocketManager.ws_close].
    f_equal.
    + destruct sws as [ws |]; simpl; [| reflexivity].
      f_equal. apply ws_close_idempotent.
    + destruct cws as [ws |]; simpl; [| reflexivity].
      f_equal. apply ws_close_idempotent.
  - rewrite cleanup_calls.
    destruct (cleanup_releases w) as [-> ->].
    destruct (signalingWs _), (captionsWs _); reflexivity.
  - rewrite cleanup_calls.
    destruct (cleanup_releases w) as [-> ->].
    destruct (signalingWs _), (captionsWs _); reflexivity.
  - unfold exec. rewrite !WebRTCManager_cleanup_spec.
    destruct w as [pc ls sws cws url ic cs caps con ts loc cl].
    lazy -[app]. rewrite app_nil_r. reflexivity.
Qed.

(** ** Sending *)

Lemma sendSignaling_spec (message : SignalingMessage) (w : World) :
  WebSocketManager.sendSignaling message w =
    (Normal tt,
     match signalingWs w with
     | Some ws =>
         if ReadyState_eqb (readyState ws) OPEN
         then set_signalingWs
                (Some (WebSocketManager.ws_send (TextFrame message) ws))
                (set_calls (calls w ++ [WsSend Signaling (TextFrame message)]) w)
         else w
     | None => w
     end).
Proof.
  unfold WebSocketManager.sendSignaling, bind, gets, record_call, modify, ret.
  destruct (signalingWs w) as [ws |]; [| reflexivity].
  destruct (ReadyState_eqb (readyState ws) OPEN); reflexivity.
Qed.

Lemma sendAudioChunk_spec (audioBlob : string) (w : World) :
  WebSocketManager.sendAudioChunk audioBlob w =
    (Normal tt,
     match captionsWs w with
     | Some ws =>
         if ReadyState_eqb (readyState ws) OPEN
         then set_captionsWs
                (Some (WebSocketManager.ws_send (BinaryFrame audioBlob) ws))
                (set_calls (calls w ++ [WsSend Captions (BinaryFrame audioBlob)]) w)
         else w
     | None => w
     end).
Proof.
  unfold WebSocketManager.sendAudioChunk, bind, gets, record_call, modify, ret.
  destruct (captionsWs w) as [ws |]; [| reflexivity].
  destruct (ReadyState_eqb (readyState ws) OPEN); reflexivity.
Qed.

(** C8. A send on a channel that is not open (no socket yet, or a socket
    connecting, closing or closed) returns normally and changes nothing: the
    frame is neither transmitted nor kept for later.  A send on an open
    channel transmits the frame, once.  This holds for [sendSignaling] and
    for [sendAudioChunk]. *)
Theorem C8_send_dropped_unless_open
    (message : SignalingMessage) (audioBlob : string) (w : World) :
  (is_open Signaling w = false ->
     WebSocketManager.sendSignaling message w = (Normal tt, w)) /\
  (is_open Signaling w = true ->
     result (WebSocketManager.sendSignaling message) w = Normal tt /\
     sent_on Signaling (exec (WebSocketManager.sendSignaling message) w) =
       (sent_on Signaling w ++ [TextFrame message])%list /\
     calls_of (WebSocketManager.sendSignaling message) w =
       [WsSend Signaling (TextFrame message)]) /\
  (is_open Captions w = false ->
     WebSocketManager.sendAudioChunk audioBlob w = (Normal tt, w)) /\
  (is_open Captions w = true ->
     result (WebSocketManager.sendAudioChunk audioBlob) w = Normal tt /\
     sent_on Captions (exec (WebSocketManager.sendAudioChunk audioBlob) w) =
       (sent_on Captions w ++ [BinaryFrame audioBlob])%list /\
     calls_of (WebSocketManager.sendAudioChunk audioBlob) w =
       [WsSend Captions (BinaryFrame audioBlob)]).
Proof.
  unfold is_open, sent_on, result; simpl.
  split; [| split; [| split]].
  - intros H. rewrite sendSignaling_spec.
    destruct (signalingWs w) as [ws |]; [| reflexivity].
    rewrite H. reflexivity.
  - intros H. split; [| split].
    + rewrite sendSignaling_spec. reflexivity.
    + unfold exec. rewrite sendSignaling_spec.
      destruct (signalingWs w) as [ws |]; [| discriminate].
      rewrite H. reflexivity.
    + apply calls_of_app. unfold exec. rewrite sendSignaling_spec.
      destruct (signalingWs w) as [ws |]; [| discriminate].
      rewrite H. reflexivity.
  - intros H. rewrite sendAudioChunk_spec.
    destruct (captionsWs w) as [ws |]; [| reflexivity].
    rewrite H. reflexivity.
  - intros H. split; [| split].
    + rewrite sendAudioChunk_spec. reflexivity.
    + unfold exec. rewrite sendAudioChunk_spec.
      destruct (captionsWs w) as [ws |]; [| discriminate].
      rewrite H. reflexivity.
    + apply calls_of_app. unfold exec. rewrite sendAudioChunk_spec.
      destruct (captionsWs w) as [ws |]; [| discriminate].
      rewrite H. reflexivity.
Qed.

(** ** Captions *)

Lemma forEach_handleCaption (events : list CaptionMessage) (w : World) :
  forEach VideoCall.handleCaption events w =
    (Normal tt, set_captions (captions w ++ events) w).
Proof.
  revert w. induction events as [| e events IH]; intros w.
  - simpl. rewrite app_nil_r. destruct w; reflexivity.
  - simpl forEach.
    assert (H1 : VideoCall.handleCaption e w =
                 (Normal tt, set_captions (captions w ++ [e]) w)) by reflexivity.
    rewrite (bind_normal _ _ _ _ _ H1), IH. simpl.
    rewrite <- app_assoc. reflexivity.
Qed.

Lemma Interleave_filter {A} (f : A -> bool) (l : list A) :
  Interleave l (filter f l) (filter (fun x => negb (f x)) l).
Proof.
  induction l as [| x l IH]; simpl.
  - constructor.
  - destruct (f x); simpl; constructor; exact IH.
Qed.

Lemma Forall_filter_true {A} (f : A -> bool) (l : list A) :
  Forall (fun x => f x = true) (filter f l).
Proof.
  apply Forall_forall. intros x Hx. apply filter_In in Hx. apply Hx.
Qed.

(** C9. The captions recorded during a call are shown in two transcripts:
    the one under the local video holds exactly the events whose speaker is
    'You', the other one exactly the remaining events, and the received list
    is a merge of the two that keeps the order of each.  For events of
    speakers You, Remote, You the first transcript is the two 'You' events
    in their order and the second is the 'Remote' event. *)
Theorem C9_captions_partitioned_by_speaker
    (events : list CaptionMessage) (w : World) :
  captions w = [] ->
  (let w' := exec (forEach VideoCall.handleCaption events) w in
   result (forEach VideoCall.handleCaption events) w = Normal tt /\
   captions w' = events /\
   Interleave events (VideoCall.You_captions w') (VideoCall.Remote_captions w') /\
   Forall (fun c => speaker c = "You") (VideoCall.You_captions w') /\
   Forall (fun c => speaker c <> "You") (VideoCall.Remote_captions w')) /\
  (forall e1 e2 e3,
     speaker e1 = "You" -> speaker e2 = "Remote" -> speaker e3 = "You" ->
     let w3 := exec (forEach VideoCall.handleCaption [e1; e2; e3]) w in
     VideoCall.You_captions w3 = [e1; e3] /\
     VideoCall.Remote_captions w3 = [e2]).
Proof.
  intros H0. split.
  - unfold result, exec. rewrite forEach_handleCaption.
    unfold VideoCall.You_captions, VideoCall.Remote_captions. simpl.
    rewrite H0. simpl.
    split; [reflexivity | split; [reflexivity | split; [| split]]].
    + apply Interleave_filter.
    + eapply Forall_impl; [| apply Forall_filter_true].
      intros c Hc. apply String.eqb_eq. exact Hc.
    + eapply Forall_impl; [| apply Forall_filter_true].
      intros c Hc. apply String.eqb_neq. apply negb_true_iff. exact Hc.
  - intros e1 e2 e3 H1 H2 H3. unfold exec. rewrite forEach_handleCaption.
    unfold VideoCall.You_captions, VideoCall.Remote_captions,
      VideoCall.is_You. simpl.
    rewrite H0. simpl. rewrite H1, H2, H3. simpl. split; reflexivity.
Qed.

(** ** The signalling dispatcher *)

Lemma handleSignalingMessage_total (room : string) (m : SignalingMessage)
    (w : World) :
  result (VideoCall.handleSignalingMessage room m) w = Normal tt.
Proof.
  unfold result, VideoCall.handleSignalingMessage, try_catch.
  match goal with |- context [match ?b w with _ => _ end] =>
    destruct (b w) as [[[] | e] w'] end; reflexivity.
Qed.

(** C2 (as the code has it). The dispatcher never reads the [roomId] of an
    inbound envelope: an envelope is handled in the same way whatever room
    it names, as a call of the handler and as a frame on the socket. *)
Theorem C2_roomId_not_checked
    (room r : string) (m : SignalingMessage) (w : World) :
  VideoCall.handleSignalingMessage room (mkMessage (type m) r (data m)) w =
    VideoCall.handleSignalingMessage room m w /\
  VideoCall.signaling_message room (json (mkMessage (type m) r (data m))) w =
    VideoCall.signaling_message room (json m) w.
Proof. split; reflexivity. Qed.

(** C4 (as the code has it). A frame that is not JSON makes the [onmessage]
    handler of either socket throw the [SyntaxError] of [JSON.parse]: the
    registered handler is not called and nothing changes, so the socket is
    as open as before, nothing is written to the console, and the next
    frame is handled as if the malformed one had not come. *)
Theorem C4_malformed_frame_thrown
    (raw : string) (onMessage : SignalingMessage -> M unit)
    (onCaption : CaptionMessage -> M unit) (w : World) :
  WebSocketManager.signaling_onmessage onMessage (malformed raw) w =
    (Throw (Rejected SyntaxError), w) /\
  WebSocketManager.captions_onmessage onCaption (malformed raw) w =
    (Throw (Rejected SyntaxError), w) /\
  (forall next,
     WebSocketManager.signaling_onmessage onMessage next
       (exec (WebSocketManager.signaling_onmessage onMessage (malformed raw)) w) =
     WebSocketManager.signaling_onmessage onMessage next w) /\
  (forall next,
     WebSocketManager.captions_onmessage onCaption next
       (exec (WebSocketManager.captions_onmessage onCaption (malformed raw)) w) =
     WebSocketManager.captions_onmessage onCaption next w).
Proof. repeat split. Qed.

(** C3 (as the code has it). [createOffer] keeps no negotiation state.
    Without a peer connection it throws 'Peer connection not initialized'
    and changes nothing.  With one, it returns an offer exactly when the
    platform creates that offer and accepts it as local description, any
    error it throws is the platform's, and nothing but the peer connection
    decides the outcome: the manager counts no earlier call. *)
Theorem C3_createOffer_has_no_state_guard (w : World) :
  (peerConnection w = None ->
     WebRTCManager.createOffer w = (Throw not_initialized, w)) /\
  (forall pc, peerConnection w = Some pc ->
     (forall offer,
        result WebRTCManager.createOffer w = Normal offer <->
        fst (pc_createOffer pc) = inr offer /\
        fst (pc_setLocalDescription offer (snd (pc_createOffer pc))) = inr tt) /\
     (forall e, result WebRTCManager.createOffer w = Throw e ->
        exists pe, e = Rejected pe)) /\
  (forall w2, peerConnection w2 = peerConnection w ->
     result WebRTCManager.createOffer w2 = result WebRTCManager.createOffer w).
Proof.
  split; [| split].
  - apply createOffer_none.
  - intros pc H. unfold result. rewrite (createOffer_some _ _ H).
    destruct (pc_createOffer pc) as [[e | o] pc1]; simpl.
    + split.
      * intros offer. split; [discriminate | intros [H1 _]; discriminate].
      * intros e0 H0. exists e. congruence.
    + destruct (pc_setLocalDescription o pc1) as [[e | []] pc2] eqn:Hs; simpl.
      * split.
        -- intros offer. split; [discriminate |].
           intros [H1 H2]. injection H1 as <-. rewrite Hs in H2. discriminate.
        -- intros e0 H0. exists e. congruence.
      * split.
        -- intros offer. split.
           ++ intros H0. injection H0 as <-. rewrite Hs. split; reflexivity.
           ++ intros [H1 _]. congruence.
        -- intros e0 H0. discriminate.
  - intros w2 H2. unfold result.
    destruct (peerConnection w) as [pc |] eqn:H.
    + rewrite (createOffer_some _ _ H), (createOffer_some _ _ H2).
      destruct (pc_createOffer pc) as [[e | o] pc1]; [reflexivity |].
      destruct (pc_setLocalDescription o pc1) as [[e | []] pc2]; reflexivity.
    + rewrite (createOffer_none _ H), (createOffer_none _ H2). reflexivity.
Qed.


Lemma handle_ice_candidate (room r : string) (c : JSValue) (w : World)
    (pc : RTCPeerConnection) :
  peerConnection w = Some pc ->
  VideoCall.handleSignalingMessage room (mkMessage IceCandidate r c) w =
    (Normal tt,
     let w1 := set_peerConnection (Some (snd (pc_addIceCandidate c pc)))
                 (set_calls (calls w ++ [PcAddIceCandidate c]) w) in
     match fst (pc_addIceCandidate c pc) with
     | inl e =>
         set_console
           (console w ++
            [console_error "Error handling signaling message:" (Rejected e)]) w1
     | inr _ => w1
     end).
Proof.
  intros H. unfold VideoCall.handleSignalingMessage. cbn [type data].
  unfold try_catch. rewrite (addIceCandidate_some _ _ _ H).
  destruct (pc_addIceCandidate c pc) as [[e | []] pc1]; reflexivity.
Qed.

Lemma handle_answer (room r : string) (d : JSValue) (w : World)
    (pc : RTCPeerConnection) :
  peerConnection w = Some pc ->
  VideoCall.handleSignalingMessage room (mkMessage Answer r d) w =
    (Normal tt,
     let w1 := set_peerConnection (Some (snd (pc_setRemoteDescription d pc)))
                 (set_calls (calls w ++ [PcSetRemoteDescription d]) w) in
     match fst (pc_setRemoteDescription d pc) with
     | inl e =>
         set_console
           (console w ++
            [console_error "Error handling signaling message:" (Rejected e)]) w1
     | inr _ => w1
     end).
Proof.
  intros H. unfold VideoCall.handleSignalingMessage. cbn [type data].
  unfold try_catch. rewrite (setRemoteDescription_some _ _ _ H).
  destruct (pc_setRemoteDescription d pc) as [[e | []] pc1]; reflexivity.
Qed.

(** The calls of the ['offer'] branch are a prefix of: set the remote
    description, create the answer, set it as local description, send it. *)
Lemma handle_offer_calls (room : string) (m : SignalingMessage) (w : World) :
  type m = Offer ->
  let tr := calls_of (VideoCall.handleSignalingMessage room m) w in
  tr = [] \/
  tr = [PcSetRemoteDescription (data m)] \/
  tr = [PcSetRemoteDescription (data m); PcCreateAnswer] \/
  (exists blob,
     tr = [PcSetRemoteDescription (data m); PcCreateAnswer;
           PcSetLocalDescription blob]) \/
  (exists blob,
     tr = [PcSetRemoteDescription (data m); PcCreateAnswer;
           PcSetLocalDescription blob;
           WsSend Signaling (TextFrame (mkMessage Answer room blob))]).
Proof.
  intros Ht tr. subst tr.
  unfold VideoCall.handleSignalingMessage. rewrite Ht.
  set (handler := fun error : Exn => console_write _).
  destruct (peerConnection w) as [pc |] eqn:Hpc.
  - (* a peer connection *)
    pose proof (setRemoteDescription_some (data m) _ _ Hpc) as H1.
    destruct (pc_setRemoteDescription (data m) pc) as [[e | []] pc1]; simpl in H1.
    + right; left. apply calls_of_app. unfold exec.
      rewrite (try_catch_throw _ handler _ _ _ (bind_throw _ _ _ _ _ H1)).
      reflexivity.
    + set (w1 := set_peerConnection _ _) in H1.
      pose proof (createAnswer_some w1 pc1 eq_refl) as H2.
      destruct (pc_createAnswer pc1) as [[e | blob] pc2].
      * right; right; left. apply calls_of_app. unfold exec, try_catch.
        rewrite (bind_normal _ _ _ _ _ H1), (bind_throw _ _ _ _ _ H2).
        simpl. rewrite <- app_assoc. reflexivity.
      * destruct (pc_setLocalDescription blob pc2) as [[e | []] pc3].
        -- right; right; right; left. exists blob.
           apply calls_of_app. unfold exec, try_catch. 
           rewrite (bind_normal _ _ _ _ _ H1), (bind_throw _ _ _ _ _ H2).
           simpl. rewrite <- app_assoc. reflexivity.
        -- set (w2 := set_peerConnection _ _) in H2.
           match goal with |- context [calls_of ?h w] =>
             assert (Hrun : h w =
               WebSocketManager.sendSignaling (mkMessage Answer room blob) w2)
           end.
           { unfold try_catch.
             rewrite (bind_normal _ _ _ _ _ H1), (bind_normal _ _ _ _ _ H2).
             rewrite sendSignaling_spec. reflexivity. }
           rewrite sendSignaling_spec in Hrun.
           destruct (signalingWs w2) as [ws |] eqn:Hws.
           ++ destruct (ReadyState_eqb (readyState ws) OPEN).
              ** right; right; right; right. exists blob.
                 apply calls_of_app. unfold exec. rewrite Hrun.
                 simpl. rewrite <- !app_assoc. reflexivity.
              ** right; right; right; left. exists blob.
                 apply calls_of_app. unfold exec. rewrite Hrun.
                 simpl. rewrite <- !app_assoc. reflexivity.
           ++ right; right; right; left. exists blob.
              apply calls_of_app. unfold exec. rewrite Hrun.
              simpl. rewrite <- !app_assoc. reflexivity.
  - left. apply calls_of_app. unfold exec.
    rewrite (try_catch_throw _ handler _ _ _
               (bind_throw _ _ _ _ _ (setRemoteDescription_none (data m) _ Hpc))).
    simpl. rewrite app_nil_r. reflexivity.
Qed.

Lemma forEach_ice_candidates (room r : string) (cs : list JSValue) :
  forall (w : World) (pc : RTCPeerConnection),
    peerConnection w = Some pc ->
    exists w' pc',
      forEach (VideoCall.handleSignalingMessage room)
        (map (mkMessage IceCandidate r) cs) w = (Normal tt, w') /\
      peerConnection w' = Some pc' /\
      calls w' = (calls w ++ map PcAddIceCandidate cs)%list.
Proof.
  induction cs as [| c cs IH]; intros w pc H.
  - exists w, pc. simpl. rewrite app_nil_r. auto.
  - simpl map. simpl forEach.
    pose (w1 := exec (VideoCall.handleSignalingMessage room
                        (mkMessage IceCandidate r c)) w).
    assert (H0 : VideoCall.handleSignalingMessage room
                   (mkMessage IceCandidate r c) w = (Normal tt, w1)).
    { unfold w1, exec. rewrite (handle_ice_candidate room r c w pc H).
      reflexivity. }
    assert (H1 : peerConnection w1 = Some (snd (pc_addIceCandidate c pc))).
    { unfold w1, exec. rewrite (handle_ice_candidate room r c w pc H).
      destruct (fst (pc_addIceCandidate c pc)); reflexivity. }
    assert (H2 : calls w1 = (calls w ++ [PcAddIceCandidate c])%list).
    { unfold w1, exec. rewrite (handle_ice_candidate room r c w pc H).
      destruct (fst (pc_addIceCandidate c pc)); reflexivity. }
    rewrite (bind_normal _ _ _ _ _ H0).
    destruct (IH w1 _ H1) as (w' & pc' & Hf & Hp & Hc).
    exists w', pc'. rewrite Hf, Hc, H2, <- app_assoc. auto.
Qed.

(** C1 (as the code has it). There is no candidate buffer.  With a peer
    connection, every ['ice-candidate'] envelope is passed to the platform's
    [addIceCandidate] at once, in receipt order and exactly once, whether or
    not a remote description has been set; what the platform rejects is
    logged by the handler and lost.  Setting the remote description later
    applies no earlier candidate: an ['answer'] envelope makes the one call
    [setRemoteDescription], and an ['offer'] envelope makes no
    [addIceCandidate] call. *)
Theorem C1_candidates_forwarded_at_once
    (room : string) (w : World) (pc : RTCPeerConnection) :
  peerConnection w = Some pc ->
  (forall r c,
     let handle :=
       VideoCall.handleSignalingMessage room (mkMessage IceCandidate r c) in
     result handle w = Normal tt /\
     calls_of handle w = [PcAddIceCandidate c] /\
     peerConnection (exec handle w) = Some (snd (pc_addIceCandidate c pc)) /\
     console (exec handle w) =
       (console w ++
        match fst (pc_addIceCandidate c pc) with
        | inl e =>
            [console_error "Error handling signaling message:" (Rejected e)]
        | inr _ => []
        end)%list) /\
  (forall r cs,
     calls_of (forEach (VideoCall.handleSignalingMessage room)
                 (map (mkMessage IceCandidate r) cs)) w =
       map PcAddIceCandidate cs) /\
  (forall r d,
     calls_of (VideoCall.handleSignalingMessage room (mkMessage Answer r d)) w =
       [PcSetRemoteDescription d]) /\
  (forall r d,
     existsb is_PcAddIceCandidate
       (calls_of (VideoCall.handleSignalingMessage room (mkMessage Offer r d)) w)
       = false).
Proof.
  intros H. split; [| split; [| split]].
  - intros r c handle. subst handle.
    split; [apply handleSignalingMessage_total |].
    split; [apply calls_of_app |]; unfold exec;
      rewrite (handle_ice_candidate room r c w pc H).
    + destruct (fst (pc_addIceCandidate c pc)); reflexivity.
    + destruct (fst (pc_addIceCandidate c pc)); simpl;
        [| rewrite app_nil_r]; split; reflexivity.
  - intros r cs.
    destruct (forEach_ice_candidates room r cs w pc H) as (w' & pc' & Hf & _ & Hc).
    apply calls_of_app. unfold exec. rewrite Hf. exact Hc.
  - intros r d. apply calls_of_app. unfold exec.
    rewrite (handle_answer room r d w pc H).
    destruct (fst (pc_setRemoteDescription d pc)); reflexivity.
  - intros r d.
    pose proof (handle_offer_calls room (mkMessage Offer r d) w eq_refl) as Hc.
    cbv zeta in Hc.
    destruct Hc as [-> | [-> | [-> | [[b ->] | [b ->]]]]]; reflexivity.
Qed.

Lemma handle_offer_answered (room : string) (m : SignalingMessage) (w : World)
    (pc pc1 pc2 pc3 : RTCPeerConnection) (blob : JSValue) (ws : WebSocket) :
  type m = Offer ->
  peerConnection w = Some pc ->
  pc_setRemoteDescription (data m) pc = (inr tt, pc1) ->
  pc_createAnswer pc1 = (inr blob, pc2) ->
  pc_setLocalDescription blob pc2 = (inr tt, pc3) ->
  signalingWs w = Some ws ->
  readyState ws = OPEN ->
  VideoCall.handleSignalingMessage room m w =
    (Normal tt,
     set_signalingWs
       (Some (WebSocketManager.ws_send
                (TextFrame (mkMessage Answer room blob)) ws))
       (set_peerConnection (Some pc3)
          (set_calls
             (calls w ++
              [PcSetRemoteDescription (data m); PcCreateAnswer;
               PcSetLocalDescription blob;
               WsSend Signaling (TextFrame (mkMessage Answer room blob))])
             w))).
Proof.
  intros Ht Hpc Hr Ha Hl Hws Hopen.
  unfold VideoCall.handleSignalingMessage. rewrite Ht.
  pose proof (setRemoteDescription_some (data m) _ _ Hpc) as H1.
  rewrite Hr in H1. simpl in H1.
  set (w1 := set_peerConnection _ _) in H1.
  pose proof (createAnswer_some w1 pc1 eq_refl) as H2.
  rewrite Ha, Hl in H2.
  set (w2 := set_peerConnection _ _) in H2.
  unfold try_catch.
  rewrite (bind_normal _ _ _ _ _ H1), (bind_normal _ _ _ _ _ H2).
  rewrite sendSignaling_spec.
  assert (Hws2 : signalingWs w2 = Some ws) by exact Hws.
  rewrite Hws2, Hopen. simpl.
  rewrite <- !app_assoc. reflexivity.
Qed.

Lemma handle_offer_no_peer_connection (room : string) (m : SignalingMessage)
    (w : World) :
  type m = Offer ->
  peerConnection w = None ->
  VideoCall.handleSignalingMessage room m w =
    (Normal tt,
     set_console
       (console w ++
        [console_error "Error handling signaling message:" not_initialized]) w).
Proof.
  intros Ht Hpc. unfold VideoCall.handleSignalingMessage. rewrite Ht.
  set (handler := fun error : Exn => console_write _).
  rewrite (try_catch_throw _ handler _ _ _
             (bind_throw _ _ _ _ _ (setRemoteDescription_none (data m) _ Hpc))).
  reflexivity.
Qed.

Lemma handle_offer_remote_rejected (room : string) (m : SignalingMessage)
    (w : World) (pc pc1 : RTCPeerConnection) (e : PlatformError) :
  type m = Offer ->
  peerConnection w = Some pc ->
  pc_setRemoteDescription (data m) pc = (inl e, pc1) ->
  VideoCall.handleSignalingMessage room m w =
    (Normal tt,
     set_console
       (console w ++
        [console_error "Error handling signaling message:" (Rejected e)])
       (set_peerConnection (Some pc1)
          (set_calls (calls w ++ [PcSetRemoteDescription (data m)]) w))).
Proof.
  intros Ht Hpc Hr. unfold VideoCall.handleSignalingMessage. rewrite Ht.
  set (handler := fun error : Exn => console_write _).
  pose proof (setRemoteDescription_some (data m) _ _ Hpc) as H1.
  rewrite Hr in H1. simpl in H1.
  rewrite (try_catch_throw _ handler _ _ _ (bind_throw _ _ _ _ _ H1)).
  reflexivity.
Qed.

Lemma handle_offer_answer_rejected (room : string) (m : SignalingMessage)
    (w : World) (pc pc1 pc2 : RTCPeerConnection) (e : PlatformError) :
  type m = Offer ->
  peerConnection w = Some pc ->
  pc_setRemoteDescription (data m) pc = (inr tt, pc1) ->
  pc_createAnswer pc1 = (inl e, pc2) ->
  VideoCall.handleSignalingMessage room m w =
    (Normal tt,
     set_console
       (console w ++
        [console_error "Error handling signaling message:" (Rejected e)])
       (set_peerConnection (Some pc2)
          (set_calls
             (calls w ++ [PcSetRemoteDescription (data m); PcCreateAnswer])
             w))).
Proof.
  intros Ht Hpc Hr Ha. unfold VideoCall.handleSignalingMessage. rewrite Ht.
  set (handler := fun error : Exn => console_write _).
  pose proof (setRemoteDescription_some (data m) _ _ Hpc) as H1.
  rewrite Hr in H1. simpl in H1.
  set (w1 := set_peerConnection _ _) in H1.
  pose proof (createAnswer_some w1 pc1 eq_refl) as H2.
  rewrite Ha in H2.
  unfold try_catch.
  rewrite (bind_normal _ _ _ _ _ H1), (bind_throw _ _ _ _ _ H2).
  unfold handler, console_write, modify; simpl.
  rewrite <- !app_assoc. reflexivity.
Qed.

Lemma handle_offer_local_rejected (room : string) (m : SignalingMessage)
    (w : World) (pc pc1 pc2 pc3 : RTCPeerConnection) (blob : JSValue)
    (e : PlatformError) :
  type m = Offer ->
  peerConnection w = Some pc ->
  pc_setRemoteDescription (data m) pc = (inr tt, pc1) ->
  pc_createAnswer pc1 = (inr blob, pc2) ->
  pc_setLocalDescription blob pc2 = (inl e, pc3) ->
  VideoCall.handleSignalingMessage room m w =
    (Normal tt,
     set_console
       (console w ++
        [console_error "Error handling signaling message:" (Rejected e)])
       (set_peerConnection (Some pc3)
          (set_calls
             (calls w ++
              [PcSetRemoteDescription (data m); PcCreateAnswer;
               PcSetLocalDescription blob])
             w))).
Proof.
  intros Ht Hpc Hr Ha Hl. unfold VideoCall.handleSignalingMessage. rewrite Ht.
  set (handler := fun error : Exn => console_write _).
  pose proof (setRemoteDescription_some (data m) _ _ Hpc) as H1.
  rewrite Hr in H1. simpl in H1.
  set (w1 := set_peerConnection _ _) in H1.
  pose proof (createAnswer_some w1 pc1 eq_refl) as H2.
  rewrite Ha, Hl in H2.
  unfold try_catch.
  rewrite (bind_normal _ _ _ _ _ H1), (bind_throw _ _ _ _ _ H2).
  unfold handler, console_write, modify; simpl.
  rewrite <- !app_assoc. reflexivity.
Qed.

Lemma handle_offer_answer_dropped (room : string) (m : SignalingMessage)
    (w : World) (pc pc1 pc2 pc3 : RTCPeerConnection) (blob : JSValue) :
  type m = Offer ->
  peerConnection w = Some pc ->
  pc_setRemoteDescription (data m) pc = (inr tt, pc1) ->
  pc_createAnswer pc1 = (inr blob, pc2) ->
  pc_setLocalDescription blob pc2 = (inr tt, pc3) ->
  is_open Signaling w = false ->
  VideoCall.handleSignalingMessage room m w =
    (Normal tt,
     set_peerConnection (Some pc3)
       (set_calls
          (calls w ++
           [PcSetRemoteDescription (data m); PcCreateAnswer;
            PcSetLocalDescription blob])
          w)).
Proof.
  intros Ht Hpc Hr Ha Hl Hclosed.
  unfold VideoCall.handleSignalingMessage. rewrite Ht.
  pose proof (setRemoteDescription_some (data m) _ _ Hpc) as H1.
  rewrite Hr in H1. simpl in H1.
  set (w1 := set_peerConnection _ _) in H1.
  pose proof (createAnswer_some w1 pc1 eq_refl) as H2.
  rewrite Ha, Hl in H2.
  set (w2 := set_peerConnection _ _) in H2.
  unfold try_catch.
  rewrite (bind_normal _ _ _ _ _ H1), (bind_normal _ _ _ _ _ H2).
  rewrite sendSignaling_spec.
  change (signalingWs w2) with (signalingWs w).
  unfold is_open in Hclosed; simpl in Hclosed.
  destruct (signalingWs w) as [ws |]; [rewrite Hclosed |];
    unfold w2, w1; simpl; rewrite <- !app_assoc; reflexivity.
Qed.

(** C6 (as the code has it). An ['offer'] envelope never makes the handler
    throw, and the calls it makes are a prefix of: set the payload as remote
    description, create the answer, set it as local description, send one
    ['answer'] envelope with that blob and the session's [roomId]; so at
    most one envelope is sent and never one of another kind.  The whole
    sequence runs, and exactly one answer goes out, when a peer connection
    exists, the platform accepts the three steps and the signalling socket
    is open.  Otherwise nothing is sent: without a peer connection, or when
    the platform rejects a step, the handler stops at that step and logs
    its error, once; when the three steps succeed and the signalling socket
    is not open, the answer is dropped and nothing is logged. *)
Theorem C6_offer_answered_once
    (room : string) (m : SignalingMessage) (w : World) :
  type m = Offer ->
  result (VideoCall.handleSignalingMessage room m) w = Normal tt /\
  (let tr := calls_of (VideoCall.handleSignalingMessage room m) w in
   tr = [] \/
   tr = [PcSetRemoteDescription (data m)] \/
   tr = [PcSetRemoteDescription (data m); PcCreateAnswer] \/
   (exists blob,
      tr = [PcSetRemoteDescription (data m); PcCreateAnswer;
            PcSetLocalDescription blob]) \/
   (exists blob,
      tr = [PcSetRemoteDescription (data m); PcCreateAnswer;
            PcSetLocalDescription blob;
            WsSend Signaling (TextFrame (mkMessage Answer room blob))])) /\
  (forall pc pc1 pc2 pc3 blob ws,
     peerConnection w = Some pc ->
     pc_setRemoteDescription (data m) pc = (inr tt, pc1) ->
     pc_createAnswer pc1 = (inr blob, pc2) ->
     pc_setLocalDescription blob pc2 = (inr tt, pc3) ->
     signalingWs w = Some ws ->
     readyState ws = OPEN ->
     let w' := exec (VideoCall.handleSignalingMessage room m) w in
     calls_of (VideoCall.handleSignalingMessage room m) w =
       [PcSetRemoteDescription (data m); PcCreateAnswer;
        PcSetLocalDescription blob;
        WsSend Signaling (TextFrame (mkMessage Answer room blob))] /\
     sent_on Signaling w' =
       (sent ws ++ [TextFrame (mkMessage Answer room blob)])%list /\
     peerConnection w' = Some pc3 /\
     console w' = console w) /\
  (peerConnection w = None ->
     let w' := exec (VideoCall.handleSignalingMessage room m) w in
     calls_of (VideoCall.handleSignalingMessage room m) w = [] /\
     signalingWs w' = signalingWs w /\
     peerConnection w' = None /\
     console w' =
       (console w ++
        [console_error "Error handling signaling message:" not_initialized])%list) /\
  (forall pc pc1 e,
     peerConnection w = Some pc ->
     pc_setRemoteDescription (data m) pc = (inl e, pc1) ->
     let w' := exec (VideoCall.handleSignalingMessage room m) w in
     calls_of (VideoCall.handleSignalingMessage room m) w =
       [PcSetRemoteDescription (data m)] /\
     signalingWs w' = signalingWs w /\
     peerConnection w' = Some pc1 /\
     console w' =
       (console w ++
        [console_error "Error handling signaling message:" (Rejected e)])%list) /\
  (forall pc pc1 pc2 e,
     peerConnection w = Some pc ->
     pc_setRemoteDescription (data m) pc = (inr tt, pc1) ->
     pc_createAnswer pc1 = (inl e, pc2) ->
     let w' := exec (VideoCall.handleSignalingMessage room m) w in
     calls_of (VideoCall.handleSignalingMessage room m) w =
       [PcSetRemoteDescription (data m); PcCreateAnswer] /\
     signalingWs w' = signalingWs w /\
     peerConnection w' = Some pc2 /\
     console w' =
       (console w ++
        [console_error "Error handling signaling message:" (Rejected e)])%list) /\
  (forall pc pc1 pc2 pc3 blob e,
     peerConnection w = Some pc ->
     pc_setRemoteDescription (data m) pc = (inr tt, pc1) ->
     pc_createAnswer pc1 = (inr blob, pc2) ->
     pc_setLocalDescription blob pc2 = (inl e, pc3) ->
     let w' := exec (VideoCall.handleSignalingMessage room m) w in
     calls_of (VideoCall.handleSignalingMessage room m) w =
       [PcSetRemoteDescription (data m); PcCreateAnswer;
        PcSetLocalDescription blob] /\
     signalingWs w' = signalingWs w /\
     peerConnection w' = Some pc3 /\
     console w' =
       (console w ++
        [console_error "Error handling signaling message:" (Rejected e)])%list) /\
  (forall pc pc1 pc2 pc3 blob,
     peerConnection w = Some pc ->
     pc_setRemoteDescription (data m) pc = (inr tt, pc1) ->
     pc_createAnswer pc1 = (inr blob, pc2) ->
     pc_setLocalDescription blob pc2 = (inr tt, pc3) ->
     is_open Signaling w = false ->
     let w' := exec (VideoCall.handleSignalingMessage room m) w in
     calls_of (VideoCall.handleSignalingMessage room m) w =
       [PcSetRemoteDescription (data m); PcCreateAnswer;
        PcSetLocalDescription blob] /\
     signalingWs w' = signalingWs w /\
     peerConnection w' = Some pc3 /\
     console w' = console w).
Proof.
  intros Ht. split; [apply handleSignalingMessage_total |].
  split; [apply handle_offer_calls; exact Ht |].
  split; [| split; [| split; [| split; [| split]]]].
  - intros pc pc1 pc2 pc3 blob ws Hpc Hr Ha Hl Hws Hopen w'. subst w'.
    split; [apply calls_of_app |]; unfold exec;
      rewrite (handle_offer_answered room m w _ _ _ _ _ _
                 Ht Hpc Hr Ha Hl Hws Hopen).
    + reflexivity.
    + repeat split.
  - intros Hpc w'. subst w'.
    split; [apply calls_of_app |]; unfold exec;
      rewrite (handle_offer_no_peer_connection room m w Ht Hpc); simpl.
    + rewrite app_nil_r. reflexivity.
    + split; [reflexivity | split; [exact Hpc | reflexivity]].
  - intros pc pc1 e Hpc Hr w'. subst w'.
    split; [apply calls_of_app |]; unfold exec;
      rewrite (handle_offer_remote_rejected room m w _ _ _ Ht Hpc Hr).
    + reflexivity.
    + repeat split.
  - intros pc pc1 pc2 e Hpc Hr Ha w'. subst w'.
    split; [apply calls_of_app |]; unfold exec;
      rewrite (handle_offer_answer_rejected room m w _ _ _ _ Ht Hpc Hr Ha).
    + reflexivity.
    + repeat split.
  - intros pc pc1 pc2 pc3 blob e Hpc Hr Ha Hl w'. subst w'.
    split; [apply calls_of_app |]; unfold exec;
      rewrite (handle_offer_local_rejected room m w _ _ _ _ _ _
                 Ht Hpc Hr Ha Hl).
    + reflexivity.
    + repeat split.
  - intros pc pc1 pc2 pc3 blob Hpc Hr Ha Hl Hclosed w'. subst w'.
    split; [apply calls_of_app |]; unfold exec;
      rewrite (handle_offer_answer_dropped room m w _ _ _ _ _
                 Ht Hpc Hr Ha Hl Hclosed).
    + reflexivity.
    + repeat split.
Qed.

End Properties.

(** * The call of [Scenario], run on the W3C platform *)

Section Runs.

#[local] Existing Instance W3C.platform.
Import Scenario.

(** C1, on the answering side: a candidate arrives before the offer.  No
    remote description is set yet; the candidate goes to [addIceCandidate] at
    once; the offer is then applied and answered, the remote description is
    set, and the candidate has not been applied: it is lost. *)
Lemma C1_early_candidate_lost :
  let early := VideoCall.handleSignalingMessage room (ice room candidate1) in
  let w1 := exec early ready in
  let later := VideoCall.handleSignalingMessage room remote_offer in
  let w2 := exec later w1 in
  option_map W3C.remoteDescription (peerConnection ready) = Some None /\
  calls_of early ready = [PcAddIceCandidate candidate1] /\
  console w1 =
    (console ready ++
     [console_error "Error handling signaling message:"
        (Rejected InvalidStateError)])%list /\
  option_map W3C.remoteDescription (peerConnection w2) =
    Some (Some (W3C.sdp_offer, "v=0 remote offer")) /\
  existsb is_PcAddIceCandidate (calls_of later w1) = false /\
  option_map W3C.remoteCandidates (peerConnection w2) = Some [].
Proof. vm_compute. repeat split. Qed.

(** C2: an ['ice-candidate'] envelope naming another room is applied to the
    peer connection of this session. *)
Lemma C2_foreign_candidate_applied :
  let foreign := ice "room-2" candidate1 in
  let handle := VideoCall.signaling_message room (json foreign) in
  roomId foreign <> room /\
  calls_of handle answered = [PcAddIceCandidate candidate1] /\
  option_map W3C.remoteCandidates (peerConnection answered) = Some [] /\
  option_map W3C.remoteCandidates (peerConnection (exec handle answered)) =
    Some [("candidate:1 1 udp 2122260223 192.0.2.1 54321 typ host", 0)].
Proof. vm_compute. repeat split. discriminate. Qed.

(** C3: a second [createOffer], with no [close()] in between, returns an
    offer; so does one made after the negotiation has completed. *)
Lemma C3_second_createOffer_succeeds :
  let w1 := exec WebRTCManager.createOffer ready in
  result WebRTCManager.createOffer ready =
    Normal (W3C.VDescription W3C.sdp_offer "v=0 offer") /\
  option_map W3C.signalingState (peerConnection w1) =
    Some W3C.have_local_offer /\
  result WebRTCManager.createOffer w1 =
    Normal (W3C.VDescription W3C.sdp_offer "v=0 offer") /\
  result WebRTCManager.createOffer answered =
    Normal (W3C.VDescription W3C.sdp_offer "v=0 offer").
Proof. vm_compute. repeat split. Qed.

(** C4: a frame that is not JSON is not logged, and the error leaves the
    handler. *)
Lemma C4_malformed_frame_not_logged :
  let on_signaling := VideoCall.signaling_message room (malformed "not json") in
  let on_captions := VideoCall.captions_message (malformed "not json") in
  result on_signaling ready = Throw (Rejected SyntaxError) /\
  console (exec on_signaling ready) = console ready /\
  result on_captions ready = Throw (Rejected SyntaxError) /\
  console (exec on_captions ready) = console ready.
Proof. vm_compute. repeat split. Qed.

(** C5: the tracks are stopped first, not last. *)
Lemma C5_tracks_stopped_first :
  calls_of VideoCall.cleanup ready =
    [TrackStop 0; TrackStop 1; PcClose; WsClose Signaling; WsClose Captions] /\
  specified_teardown_order (calls_of VideoCall.cleanup ready) = false.
Proof. vm_compute. split; reflexivity. Qed.

(** C6: an offer for this room that is not answered: one handled after the
    teardown, and one that carries no payload. *)
Lemma C6_offer_not_answered :
  let bare := mkMessage Offer room undefined in
  type remote_offer = Offer /\ roomId remote_offer = room /\
  calls_of (VideoCall.handleSignalingMessage room remote_offer) torn_down = [] /\
  console (exec (VideoCall.handleSignalingMessage room remote_offer) torn_down) =
    (console torn_down ++
     [console_error "Error handling signaling message:" not_initialized])%list /\
  type bare = Offer /\ roomId bare = room /\
  calls_of (VideoCall.handleSignalingMessage room bare) ready =
    [PcSetRemoteDescription undefined] /\
  sent_on Signaling (exec (VideoCall.handleSignalingMessage room bare) ready) =
    sent_on Signaling ready.
Proof. vm_compute. repeat split. Qed.

(** C1 on the ready call: two candidates that arrive before any description
    are both handed over, in their order. *)
Lemma C1_witness :
  peerConnection ready =
    Some (W3C.mkPC W3C.stable None None None None [] [0; 1]) /\
  calls_of (forEach (VideoCall.handleSignalingMessage room)
              (map (mkMessage IceCandidate room) [candidate1; candidate2]))
    ready = [PcAddIceCandidate candidate1; PcAddIceCandidate candidate2] /\
  calls_of (VideoCall.handleSignalingMessage room remote_answer) ready =
    [PcSetRemoteDescription (data remote_answer)].
Proof.
  split; [reflexivity |].
  destruct (C1_candidates_forwarded_at_once room ready _ eq_refl)
    as (_ & Hseq & Hanswer & _).
  split.
  - exact (Hseq room [candidate1; candidate2]).
  - exact (Hanswer room (data remote_answer)).
Defined.

(** C3 on the ready call: the platform creates and accepts the offer, so
    [createOffer] returns it. *)
Lemma C3_witness :
  peerConnection ready =
    Some (W3C.mkPC W3C.stable None None None None [] [0; 1]) /\
  result WebRTCManager.createOffer ready =
    Normal (W3C.VDescription W3C.sdp_offer "v=0 offer") /\
  (peerConnection first_render = None /\
   WebRTCManager.createOffer first_render = (Throw not_initialized, first_render)).
Proof.
  split; [reflexivity |]. split.
  - destruct (C3_createOffer_has_no_state_guard ready) as (_ & Hsome & _).
    destruct (Hsome _ eq_refl) as (Hiff & _).
    apply Hiff. split; reflexivity.
  - split; [reflexivity |].
    destruct (C3_createOffer_has_no_state_guard first_render) as (Hnone & _).
    apply Hnone. reflexivity.
Defined.

(** C6 on the ready call: the remote offer is answered by one envelope.
    And where no answer goes out: after the teardown (no peer connection), an
    offer envelope without payload (the remote description is rejected), an
    offer envelope that carries an answer to the session's own offer (no
    answer can be created), a browser that refuses the local description,
    and a call whose signalling socket is still connecting. *)
Lemma C6_witness :
  let log := console_error "Error handling signaling message:" in
  let bare := mkMessage Offer room undefined in
  let crossed := mkMessage Offer room (data remote_answer) in
  let offering :=
    exec (VideoCall.handleSignalingMessage room
            (mkMessage PeerJoined room undefined)) ready in
  (type remote_offer = Offer /\
   calls_of (VideoCall.handleSignalingMessage room remote_offer) ready =
     [PcSetRemoteDescription (data remote_offer); PcCreateAnswer;
      PcSetLocalDescription (W3C.VDescription W3C.sdp_answer "v=0 answer");
      WsSend Signaling
        (TextFrame
           (mkMessage Answer room
              (W3C.VDescription W3C.sdp_answer "v=0 answer")))] /\
   sent_on Signaling
     (exec (VideoCall.handleSignalingMessage room remote_offer) ready) =
     [TextFrame (mkMessage JoinRoom room undefined);
      TextFrame
        (mkMessage Answer room (W3C.VDescription W3C.sdp_answer "v=0 answer"))]) /\
  (peerConnection torn_down = None /\
   signalingWs (exec (VideoCall.handleSignalingMessage room remote_offer) torn_down) =
     signalingWs torn_down /\
   console (exec (VideoCall.handleSignalingMessage room remote_offer) torn_down) =
     (console torn_down ++ [log not_initialized])%list) /\
  (signalingWs (exec (VideoCall.handleSignalingMessage room bare) ready) =
     signalingWs ready /\
   console (exec (VideoCall.handleSignalingMessage room bare) ready) =
     (console ready ++ [log (Rejected TypeError)])%list) /\
  (calls_of (VideoCall.handleSignalingMessage room crossed) offering =
     [PcSetRemoteDescription (data remote_answer); PcCreateAnswer] /\
   signalingWs (exec (VideoCall.handleSignalingMessage room crossed) offering) =
     signalingWs offering /\
   console (exec (VideoCall.handleSignalingMessage room crossed) offering) =
     (console offering ++ [log (Rejected InvalidStateError)])%list) /\
  (@signalingWs Faulty.platform
     (@exec Faulty.platform unit
        (@VideoCall.handleSignalingMessage Faulty.platform room Faulty.remote_offer)
        Faulty.ready) =
     @signalingWs Faulty.platform Faulty.ready /\
   @console Faulty.platform
     (@exec Faulty.platform unit
        (@VideoCall.handleSignalingMessage Faulty.platform room Faulty.remote_offer)
        Faulty.ready) =
     (@console Faulty.platform Faulty.ready ++
      [log (Rejected OperationError)])%list) /\
  (is_open Signaling started = false /\
   signalingWs (exec (VideoCall.handleSignalingMessage room remote_offer) started) =
     signalingWs started /\
   console (exec (VideoCall.handleSignalingMessage room remote_offer) started) =
     console started).
Proof.
  intros log bare crossed offering.
  split; [| split; [| split; [| split; [| split]]]].
  - split; [reflexivity |].
    destruct (C6_offer_answered_once room remote_offer ready eq_refl)
      as (_ & _ & Hfull & _).
    destruct (Hfull _ _ _ _ _ _ eq_refl eq_refl eq_refl eq_refl eq_refl eq_refl)
      as (Hcalls & Hsent & _).
    split; [exact Hcalls | exact Hsent].
  - split; [reflexivity |].
    destruct (C6_offer_answered_once room remote_offer torn_down eq_refl)
      as (_ & _ & _ & Hnone & _).
    destruct (Hnone eq_refl) as (_ & Hws & _ & Hlog).
    split; [exact Hws | exact Hlog].
  - destruct (C6_offer_answered_once room bare ready eq_refl)
      as (_ & _ & _ & _ & Hremote & _).
    destruct (Hremote _ _ TypeError eq_refl eq_refl) as (_ & Hws & _ & Hlog).
    split; [exact Hws | exact Hlog].
  - destruct (C6_offer_answered_once room crossed offering eq_refl)
      as (_ & _ & _ & _ & _ & Hanswer & _).
    destruct (Hanswer _ _ _ InvalidStateError eq_refl eq_refl eq_refl)
      as (Hcalls & Hws & _ & Hlog).
    split; [exact Hcalls | split; [exact Hws | exact Hlog]].
  - destruct (@C6_offer_answered_once Faulty.platform room Faulty.remote_offer
                Faulty.ready eq_refl)
      as (_ & _ & _ & _ & _ & _ & Hlocal & _).
    destruct (Hlocal _ _ _ _ _ OperationError eq_refl eq_refl eq_refl eq_refl)
      as (_ & Hws & _ & Hlog).
    split; [exact Hws | exact Hlog].
  - split; [reflexivity |].
    destruct (C6_offer_answered_once room remote_offer started eq_refl)
      as (_ & _ & _ & _ & _ & _ & _ & Hdrop).
    destruct (Hdrop _ _ _ _ _ eq_refl eq_refl eq_refl eq_refl eq_refl)
      as (_ & Hws & _ & Hlog).
    split; [exact Hws | exact Hlog].
Defined.

(** C8 on a call whose sockets are still connecting, and on the ready
    call. *)
Lemma C8_witness :
  (is_open Signaling started = false /\
   WebSocketManager.sendSignaling remote_answer started = (Normal tt, started)) /\
  (is_open Signaling ready = true /\
   sent_on Signaling (exec (WebSocketManager.sendSignaling remote_answer) ready) =
     [TextFrame (mkMessage JoinRoom room undefined); TextFrame remote_answer]) /\
  (is_open Captions torn_down = false /\
   WebSocketManager.sendAudioChunk "chunk-1" torn_down = (Normal tt, torn_down)) /\
  (is_open Captions ready = true /\
   sent_on Captions (exec (WebSocketManager.sendAudioChunk "chunk-1") ready) =
     [BinaryFrame "chunk-1"]).
Proof.
  split; [| split; [| split]]; (split; [reflexivity |]).
  - destruct (C8_send_dropped_unless_open remote_answer "chunk-1" started)
      as (Hdrop & _).
    apply Hdrop. reflexivity.
  - destruct (C8_send_dropped_unless_open remote_answer "chunk-1" ready)
      as (_ & Hsend & _).
    destruct (Hsend eq_refl) as (_ & Hsent & _). exact Hsent.
  - destruct (C8_send_dropped_unless_open remote_answer "chunk-1" torn_down)
      as (_ & _ & Hdrop & _).
    apply Hdrop. reflexivity.
  - destruct (C8_send_dropped_unless_open remote_answer "chunk-1" ready)
      as (_ & _ & _ & Hsend).
    destruct (Hsend eq_refl) as (_ & Hsent & _). exact Hsent.
Defined.

(** C9 on the three events of the specification. *)
Lemma C9_witness :
  let e1 := caption "You" "Hello" 1 in
  let e2 := caption "Remote" "Hola" 2 in
  let e3 := caption "You" "How are you?" 3 in
  let w3 := exec (forEach VideoCall.handleCaption [e1; e2; e3]) first_render in
  captions first_render = [] /\
  VideoCall.You_captions w3 = [e1; e3] /\
  VideoCall.Remote_captions w3 = [e2] /\
  Interleave [e1; e2; e3] (VideoCall.You_captions w3)
    (VideoCall.Remote_captions w3).
Proof.
  intros e1 e2 e3 w3.
  split; [reflexivity |].
  destruct (C9_captions_partitioned_by_speaker [e1; e2; e3] first_render eq_refl)
    as ((_ & _ & Hmerge & _) & Hthree).
  destruct (Hthree e1 e2 e3 eq_refl eq_refl eq_refl) as (Hyou & Hremote).
  split; [exact Hyou | split; [exact Hremote | exact Hmerge]].
Defined.

(** C10 before [createPeerConnection] and on the ready call. *)
Lemma C10_witness :
  (peerConnection first_render = None /\
   result WebRTCManager.createAnswer first_render = Throw not_initialized /\
   exec (WebRTCManager.addIceCandidate candidate1) first_render = first_render) /\
  (peerConnection ready <> None /\
   result WebRTCManager.createAnswer ready <> Throw not_initialized).
Proof.
  split.
  - split; [reflexivity |].
    destruct (C10_not_initialized_iff_no_peer_connection first_render)
      as (_ & Hanswer & _ & _ & Hsame & _).
    split.
    + apply Hanswer. reflexivity.
    + apply (Hsame eq_refl).
  - split; [discriminate |].
    destruct (C10_not_initialized_iff_no_peer_connection ready)
      as (_ & Hanswer & _).
    intros Hthrow. apply Hanswer in Hthrow. discriminate Hthrow.
Defined.

End Runs.

(** * More of the program *)

(** ** Relations the monad carries through *)

Section KeepsRules.
Context {P : Platform}.
Variable R : World -> World -> Prop.
Hypothesis R_refl : forall w, R w w.
Hypothesis R_trans : forall a b c, R a b -> R b c -> R a c.

Lemma keeps_ret {A} (a : A) : keeps R (ret a).
Proof. intros w. apply R_refl. Qed.

Lemma keeps_throw {A} (e : Exn) : keeps R (@throw P A e).
Proof. intros w. apply R_refl. Qed.

Lemma keeps_gets {A} (f : World -> A) : keeps R (gets f).
Proof. intros w. apply R_refl. Qed.

Lemma keeps_modify (f : World -> World) :
  (forall w, R w (f w)) -> keeps R (modify f).
Proof. intros H w. apply H. Qed.

Lemma keeps_bind {A B} (m : M A) (k : A -> M B) :
  keeps R m -> (forall a, keeps R (k a)) -> keeps R (bind m k).
Proof.
  intros Hm Hk w. specialize (Hm w). unfold exec, bind in *.
  destruct (m w) as [[a | e] w1]; simpl in *.
  - eapply R_trans; [exact Hm | apply Hk].
  - exact Hm.
Qed.

Lemma keeps_try_catch {A} (body : M A) (handler : Exn -> M A) :
  keeps R body -> (forall e, keeps R (handler e)) ->
  keeps R (try_catch body handler).
Proof.
  intros Hb Hh w. specialize (Hb w). unfold exec, try_catch in *.
  destruct (body w) as [[a | e] w1]; simpl in *.
  - exact Hb.
  - eapply R_trans; [exact Hb | apply Hh].
Qed.

Lemma keeps_forEach {A} (f : A -> M unit) (l : list A) :
  (forall x, keeps R (f x)) -> keeps R (forEach f l).
Proof.
  intros Hf. induction l as [| x l IH]; simpl.
  - apply keeps_ret.
  - apply keeps_bind; [apply Hf | intros _; exact IH].
Qed.

Lemma keeps_run_events (handlers : list (M unit)) (w : World) :
  Forall (keeps R) handlers -> R w (run_events handlers w).
Proof.
  intros H. revert w. induction H as [| h hs Hh _ IH]; intros w; simpl.
  - apply R_refl.
  - eapply R_trans; [apply Hh | apply IH].
Qed.

End KeepsRules.

(** ** What signalling can change *)

Section Confinement.
Context {P : Platform}.

Lemma socket_advanced_refl (s : option WebSocket) : socket_advanced s s.
Proof.
  destruct s as [ws |]; simpl; [| exact I].
  repeat split. exists []. symmetry. apply app_nil_r.
Qed.

Lemma socket_advanced_trans (a b c : option WebSocket) :
  socket_advanced a b -> socket_advanced b c -> socket_advanced a c.
Proof.
  destruct a as [x |], b as [y |], c as [z |]; simpl; try tauto.
  intros (Hu1 & Hr1 & f1 & Hs1) (Hu2 & Hr2 & f2 & Hs2).
  repeat split; try congruence.
  exists (f1 ++ f2)%list. rewrite Hs2, Hs1, app_assoc. reflexivity.
Qed.

Lemma confined_refl (w : World) : confined w w.
Proof.
  unfold confined. repeat split; auto.
  - apply socket_advanced_refl.
  - exists []. symmetry. apply app_nil_r.
  - exists []. split; [symmetry; apply app_nil_r | reflexivity].
Qed.

Lemma confined_trans (a b c : World) :
  confined a b -> confined b c -> confined a c.
Proof.
  unfold confined.
  intros (H1 & H2 & H3 & H4 & H5 & H6 & H7 & (e1 & H8) & (t1 & H9 & H9') & H10 & H11)
         (K1 & K2 & K3 & K4 & K5 & K6 & K7 & (e2 & K8) & (t2 & K9 & K9') & K10 & K11).
  split; [congruence |]. split; [congruence |]. split; [congruence |].
  split; [congruence |]. split; [congruence |].
  split; [rewrite K6; exact H6 |].
  split; [eapply socket_advanced_trans; eassumption |].
  split; [exists (e1 ++ e2)%list; rewrite K8, H8, app_assoc; reflexivity |].
  split.
  - exists (t1 ++ t2)%list. split.
    + rewrite K9, H9, app_assoc. reflexivity.
    + rewrite forallb_app, H9', K9'. reflexivity.
  - split; auto.
Qed.

(** A step that appends calls and console entries, keeps the peer
    connection present or absent, and touches nothing else. *)
Lemma confined_step (w : World) (pc' : option RTCPeerConnection)
    (tr : list Call) (entries : list LogEntry) :
  (pc' = None <-> peerConnection w = None) ->
  forallb negotiation_call tr = true ->
  confined w
    (set_console (console w ++ entries)
       (set_peerConnection pc' (set_calls (calls w ++ tr) w))).
Proof.
  intros Hpc Htr. unfold confined; simpl.
  repeat split; auto; try apply Hpc.
  - apply socket_advanced_refl.
  - exists entries. reflexivity.
  - exists tr. split; [reflexivity | exact Htr].
Qed.

Lemma confined_await_pc {A} (c : Call)
    (method : RTCPeerConnection -> (PlatformError + A) * RTCPeerConnection) :
  negotiation_call c = true ->
  keeps confined (WebRTCManager.await_pc c method).
Proof.
  intros Hc w. unfold exec, WebRTCManager.await_pc.
  destruct (peerConnection w) as [pc |] eqn:Hpc; [| apply confined_refl].
  destruct (method pc) as [[e | a] pc1]; simpl.
  all: eapply confined_trans;
    [apply (confined_step w (Some pc1) [c] []) | ].
  all: try (rewrite Hpc; split; discriminate).
  all: try (simpl; rewrite Hc; reflexivity).
  all: rewrite app_nil_r; destruct w; apply confined_refl.
Qed.


Local Ltac keeps_confined :=
  repeat first
    [ apply (keeps_ret confined confined_refl)
    | apply (keeps_throw confined confined_refl)
    | apply (keeps_gets confined confined_refl)
    | apply (keeps_bind confined confined_trans)
    | apply (keeps_try_catch confined confined_trans)
    | apply confined_await_pc; reflexivity
    | match goal with |- forall _ : option _, _ => intros [] end
    | intros ? ].

Lemma confined_createOffer : keeps confined WebRTCManager.createOffer.
Proof. unfold WebRTCManager.createOffer. keeps_confined. Qed.

Lemma confined_createAnswer : keeps confined WebRTCManager.createAnswer.
Proof. unfold WebRTCManager.createAnswer. keeps_confined. Qed.

Lemma confined_setRemoteDescription (d : JSValue) :
  keeps confined (WebRTCManager.setRemoteDescription d).
Proof. unfold WebRTCManager.setRemoteDescription. keeps_confined. Qed.

Lemma confined_addIceCandidate (c : JSValue) :
  keeps confined (WebRTCManager.addIceCandidate c).
Proof. unfold WebRTCManager.addIceCandidate. keeps_confined. Qed.

Lemma confined_sendSignaling (message : SignalingMessage) :
  keeps confined (WebSocketManager.sendSignaling message).
Proof.
  intros w. unfold exec. rewrite sendSignaling_spec. simpl.
  destruct (signalingWs w) as [ws |] eqn:Hws; [| apply confined_refl].
  destruct (ReadyState_eqb (readyState ws) OPEN); [| apply confined_refl].
  unfold confined; simpl. rewrite Hws; simpl.
  repeat split; auto.
  - exists [TextFrame message]. reflexivity.
  - exists []. symmetry. apply app_nil_r.
  - exists [WsSend Signaling (TextFrame message)]. split; reflexivity.
Qed.

Lemma confined_console_write (entry : LogEntry) :
  keeps confined (console_write entry).
Proof.
  intros w. unfold exec, console_write, modify; simpl.
  unfold confined; simpl. repeat split; auto.
  - apply socket_advanced_refl.
  - exists [entry]. reflexivity.
  - exists []. split; [symmetry; apply app_nil_r | reflexivity].
Qed.

Lemma confined_peer_left :
  keeps confined
    (VideoCall.setIsConnected false ;;
     VideoCall.setConnectionStatus disconnected ;;
     VideoCall.toast (mkToast "Peer disconnected"
                        "The other participant has left the call")).
Proof.
  intros w. unfold exec, bind, VideoCall.setIsConnected,
    VideoCall.setConnectionStatus, VideoCall.toast, modify; simpl.
  unfold confined; simpl. repeat split; auto; try discriminate.
  - apply socket_advanced_refl.
  - exists []. symmetry. apply app_nil_r.
  - exists []. split; [symmetry; apply app_nil_r | reflexivity].
Qed.

Lemma confined_handleSignalingMessage (room : string) (m : SignalingMessage) :
  keeps confined (VideoCall.handleSignalingMessage room m).
Proof.
  unfold VideoCall.handleSignalingMessage.
  apply (keeps_try_catch confined confined_trans);
    [| intros e; apply confined_console_write].
  destruct (type m).
  - apply (keeps_bind confined confined_trans);
      [apply confined_setRemoteDescription | intros _].
    apply (keeps_bind confined confined_trans);
      [apply confined_createAnswer | intros a; apply confined_sendSignaling].
  - apply confined_setRemoteDescription.
  - apply confined_addIceCandidate.
  - apply (keeps_ret confined confined_refl).
  - apply (keeps_bind confined confined_trans);
      [apply confined_createOffer | intros o; apply confined_sendSignaling].
  - apply confined_peer_left.
Qed.

Lemma confined_within_negotiation (w w' : World) :
  confined w w' -> within_negotiation w w'.
Proof.
  unfold confined, within_negotiation.
  intros (H1 & H2 & H3 & H4 & H5 & H6 & H7 & H8 & H9 & _).
  repeat (split; [assumption |]). exact H9.
Qed.

(** X1. Signalling is confined.  Whatever envelopes arrive, in whatever
    order, handling them never throws and stays within the negotiation: the
    handler makes no call but the five negotiation methods of the peer
    connection and sends on the signalling socket, it only appends to the
    console and to the frames of that socket, it neither creates nor drops
    the peer connection, and it leaves the local stream, the captions, the
    captions socket and the URL and state of the signalling socket as they
    are.  (The indicators of the page are left out: a remote-track callback
    may run while the remote description is being set.) *)
Theorem signalling_is_confined
    (room : string) (messages : list SignalingMessage) (w : World) :
  result (forEach (VideoCall.handleSignalingMessage room) messages) w = Normal tt /\
  within_negotiation w
    (exec (forEach (VideoCall.handleSignalingMessage room) messages) w).
Proof.
  split.
  - revert w. induction messages as [| m ms IH]; intros w; [reflexivity |].
    simpl forEach. unfold result, bind.
    pose proof (handleSignalingMessage_total room m w) as Ht.
    unfold result in Ht.
    destruct (VideoCall.handleSignalingMessage room m w) as [c w1].
    simpl in Ht. subst c. apply IH.
  - apply confined_within_negotiation.
    apply (keeps_forEach confined confined_refl confined_trans).
    intros m. apply confined_handleSignalingMessage.
Qed.

End Confinement.

(** ** Starting a call *)

Section Starting.
Context {P : Platform}.

Lemma forEach_addTrack_spec (tracks : list MediaStreamTrack) :
  forall (w : World) (pc : RTCPeerConnection),
    peerConnection w = Some pc ->
    forEach WebRTCManager.addTrack tracks w =
      (Normal tt,
       set_peerConnection
         (Some (fold_left (fun pc t => pc_addTrack t pc) tracks pc))
         (set_calls
            (calls w ++ map (fun t => PcAddTrack (track_id t)) tracks) w)).
Proof.
  induction tracks as [| t tracks IH]; intros w pc H.
  - simpl. rewrite app_nil_r. destruct w; simpl in *; subst; reflexivity.
  - simpl forEach.
    pose (w1 := set_peerConnection (Some (pc_addTrack t pc))
                  (set_calls (calls w ++ [PcAddTrack (track_id t)]) w)).
    assert (H1 : WebRTCManager.addTrack t w = (Normal tt, w1)).
    { unfold WebRTCManager.addTrack, bind, gets. rewrite H. reflexivity. }
    rewrite (bind_normal _ _ _ _ _ H1).
    rewrite (IH w1 (pc_addTrack t pc) eq_refl).
    unfold w1; simpl. rewrite <- app_assoc. reflexivity.
Qed.

Lemma createPeerConnection_spec (w : World) :
  WebRTCManager.createPeerConnection w =
    (Normal tt,
     let tracks := match localStream w with Some s => s | None => [] end in
     set_peerConnection
       (Some (fold_left (fun pc t => pc_addTrack t pc) tracks pc_new))
       (set_calls
          (calls w ++ PcNew :: map (fun t => PcAddTrack (track_id t)) tracks)
          w)).
Proof.
  unfold WebRTCManager.createPeerConnection.
  unfold bind at 1. unfold record_call at 1. unfold modify at 1.
  unfold bind at 1. unfold modify at 1.
  unfold bind at 1. unfold gets at 1. cbv beta iota.
  set (w1 := set_peerConnection (Some pc_new) _).
  change (localStream w1) with (localStream w).
  destruct (localStream w) as [tracks |].
  - rewrite (forEach_addTrack_spec tracks w1 pc_new eq_refl).
    unfold w1; simpl. rewrite <- app_assoc. reflexivity.
  - reflexivity.
Qed.


Lemma initializeCall_granted_run (room : string) (stream : MediaStream)
    (w : World) :
  VideoCall.initializeCall room (inr stream) w =
    (Normal tt,
     mkWorld
       (Some (fold_left (fun pc t => pc_addTrack t pc) stream pc_new))
       (Some stream)
       (Some (mkWebSocket (backendUrl w ++ "/ws/signaling") CONNECTING []))
       (Some (mkWebSocket (backendUrl w ++ "/ws/captions/" ++ room)
                CONNECTING []))
       (backendUrl w) (isConnected w) connecting (captions w) (console w)
       (toasts w) (location_href w)
       (calls w ++
        [WsNew Signaling; WsNew Captions; PcNew] ++
        map (fun t => PcAddTrack (track_id t)) stream)).
Proof.
  unfold VideoCall.initializeCall, try_catch.
  pose (w1 := set_localStream (Some stream) w).
  assert (H1 : WebRTCManager.getLocalStream (inr stream) w = (Normal stream, w1))
    by reflexivity.
  pose (w2 := exec WebSocketManager.connectSignaling w1).
  assert (H2 : WebSocketManager.connectSignaling w1 = (Normal tt, w2))
    by reflexivity.
  pose (w3 := exec (WebSocketManager.connectCaptions room) w2).
  assert (H3 : WebSocketManager.connectCaptions room w2 = (Normal tt, w3))
    by reflexivity.
  rewrite (bind_normal _ _ _ _ _ H1), (bind_normal _ _ _ _ _ H2),
    (bind_normal _ _ _ _ _ H3).
  erewrite bind_normal by apply createPeerConnection_spec.
  change (localStream w3) with (Some stream).
  destruct w as [pc ls sws cws url ic cs caps con ts loc cl].
  lazy -[app map fold_left pc_addTrack pc_new String.append].
  rewrite <- !app_assoc. reflexivity.
Qed.

(** X2. When the browser refuses the camera or the microphone,
    [initializeCall] does not throw and starts nothing: it makes no platform
    call and leaves the peer connection, the local stream and both sockets
    as they were.  The call is marked disconnected, the error is logged
    twice (by [getLocalStream] and by [initializeCall]) and one toast is
    shown. *)
Theorem initializeCall_refused (room : string) (e : PlatformError) (w : World) :
  let w' := exec (VideoCall.initializeCall room (inl e)) w in
  result (VideoCall.initializeCall room (inl e)) w = Normal tt /\
  calls w' = calls w /\
  peerConnection w' = peerConnection w /\
  localStream w' = localStream w /\
  signalingWs w' = signalingWs w /\
  captionsWs w' = captionsWs w /\
  isConnected w' = isConnected w /\
  connectionStatus w' = disconnected /\
  console w' =
    (console w ++
     [console_error "Error accessing media devices:" (Rejected e);
      console_error "Error initializing call:" (Rejected e)])%list /\
  toasts w' =
    (toasts w ++
     [mkToast "Connection error"
        "Failed to initialize call. Please check your permissions."])%list.
Proof.
  destruct w as [pc ls sws cws url ic cs caps con ts loc cl].
  lazy -[app]. rewrite <- app_assoc. repeat split.
Qed.

(** X3. [createPeerConnection] never throws and always starts from a
    fresh platform connection: it makes the connection, then adds every
    track of the local stream to it once, in stream order (no track when
    there is no stream), and keeps it as the manager's peer connection.  A
    connection the manager held before is dropped without being closed and
    has no part in the new one; nothing else changes. *)
Theorem peer_connection_made_afresh (w : World) :
  let tracks := match localStream w with Some s => s | None => [] end in
  let w' := exec WebRTCManager.createPeerConnection w in
  result WebRTCManager.createPeerConnection w = Normal tt /\
  calls_of WebRTCManager.createPeerConnection w =
    PcNew :: map (fun t => PcAddTrack (track_id t)) tracks /\
  peerConnection w' =
    Some (fold_left (fun pc t => pc_addTrack t pc) tracks pc_new) /\
  state_of (set_peerConnection (peerConnection w) w') = state_of w.
Proof.
  intros tracks w'. subst tracks w'.
  unfold result, exec.
  split; [rewrite createPeerConnection_spec; reflexivity |].
  split; [apply calls_of_app; unfold exec |];
    rewrite createPeerConnection_spec; [reflexivity |].
  split; [reflexivity |].
  destruct w; reflexivity.
Qed.

End Starting.

(** ** Frames going out *)

Section Outbound.
Context {P : Platform}.

Lemma run_events_cons (h : M unit) (hs : list (M unit)) (w : World) :
  run_events (h :: hs) w = run_events hs (exec h w).
Proof. reflexivity. Qed.

Lemma local_candidate_not_open (room : string) (e : option JSValue) (w : World) :
  is_open Signaling w = false ->
  PeerConnectionEvents.local_candidate room e w = (Normal tt, w).
Proof.
  intros H. destruct e as [c |]; [| reflexivity].
  unfold PeerConnectionEvents.local_candidate,
    PeerConnectionEvents.onicecandidate, VideoCall.onIceCandidate.
  rewrite sendSignaling_spec. unfold is_open in H; simpl in H.
  destruct (signalingWs w) as [ws |]; [rewrite H |]; reflexivity.
Qed.

Lemma local_candidates_not_open (room : string) (events : list (option JSValue))
    (w : World) :
  is_open Signaling w = false ->
  run_events (map (PeerConnectionEvents.local_candidate room) events) w = w.
Proof.
  intros H. induction events as [| e events IH]; [reflexivity |].
  simpl map. rewrite run_events_cons. unfold exec.
  rewrite (local_candidate_not_open room e w H). exact IH.
Qed.

(** X4. Until the signalling socket has opened nothing goes out: the
    candidates the browser gathers between [initializeCall] and the opening
    of the socket change nothing and are not kept for later, so once the
    socket opens the frames sent on it are the ['join-room'] envelope of the
    room and nothing else. *)
Theorem join_room_is_the_first_frame
    (room : string) (stream : MediaStream) (events : list (option JSValue))
    (w : World) :
  let w1 := exec (VideoCall.initializeCall room (inr stream)) w in
  let w2 := run_events (map (PeerConnectionEvents.local_candidate room) events) w1 in
  let w3 := exec (WebSocketManager.established Signaling ;;
                  WebSocketManager.signaling_onopen room) w2 in
  w2 = w1 /\
  is_open Signaling w3 = true /\
  sent_on Signaling w3 = [TextFrame (mkMessage JoinRoom room undefined)].
Proof.
  intros w1 w2 w3.
  assert (H12 : w2 = w1).
  { unfold w2. apply local_candidates_not_open.
    unfold w1, exec. rewrite initializeCall_granted_run. reflexivity. }
  split; [exact H12 |].
  unfold w3. rewrite H12. unfold w1, exec.
  rewrite initializeCall_granted_run.
  split; reflexivity.
Qed.

Lemma local_candidates_open (room : string) (events : list (option JSValue)) :
  forall (w : World) (ws : WebSocket),
    signalingWs w = Some ws ->
    readyState ws = OPEN ->
    let envelopes :=
      map (fun c => TextFrame (mkMessage IceCandidate room c)) (gathered events) in
    run_events (map (PeerConnectionEvents.local_candidate room) events) w =
      set_signalingWs
        (Some (mkWebSocket (url ws) OPEN (sent ws ++ envelopes)))
        (set_calls (calls w ++ map (WsSend Signaling) envelopes) w).
Proof.
  induction events as [| e events IH]; intros w ws Hws Hopen.
  - simpl. rewrite !app_nil_r. destruct w, ws; simpl in *; subst; reflexivity.
  - simpl map. rewrite run_events_cons. destruct e as [c |].
    + unfold exec.
      unfold PeerConnectionEvents.local_candidate,
        PeerConnectionEvents.onicecandidate, VideoCall.onIceCandidate.
      rewrite sendSignaling_spec, Hws, Hopen. cbn [snd ReadyState_eqb].
      erewrite IH by (simpl; reflexivity || exact Hopen).
      simpl. rewrite <- !app_assoc. reflexivity.
    + apply (IH w ws Hws Hopen).
Qed.

(** X5. While the signalling socket is open, the candidates the browser
    gathers go out as ['ice-candidate'] envelopes of the session's room, one
    per candidate, in the order of gathering; the event that ends the
    gathering (no candidate) sends nothing; the socket stays open. *)
Theorem local_candidates_relayed_in_order
    (room : string) (events : list (option JSValue)) (w : World) :
  is_open Signaling w = true ->
  let w' := run_events (map (PeerConnectionEvents.local_candidate room) events) w in
  let envelopes :=
    map (fun c => TextFrame (mkMessage IceCandidate room c)) (gathered events) in
  sent_on Signaling w' = (sent_on Signaling w ++ envelopes)%list /\
  calls w' = (calls w ++ map (WsSend Signaling) envelopes)%list /\
  is_open Signaling w' = true /\
  state_of (set_signalingWs (signalingWs w) w') = state_of w.
Proof.
  intros H w' envelopes. subst w' envelopes.
  unfold is_open, sent_on in *; simpl in H |- *.
  destruct (signalingWs w) as [ws |] eqn:Hws; [| discriminate].
  assert (Hopen : readyState ws = OPEN) by (destruct (readyState ws); easy).
  rewrite (local_candidates_open room events w ws Hws Hopen).
  simpl. repeat split.
  destruct w; simpl in *; subst; reflexivity.
Qed.

Lemma sendAudioChunks_open (chunks : list string) :
  forall (w : World) (ws : WebSocket),
    captionsWs w = Some ws ->
    readyState ws = OPEN ->
    forEach WebSocketManager.sendAudioChunk chunks w =
      (Normal tt,
       set_captionsWs
         (Some (mkWebSocket (url ws) OPEN (sent ws ++ map BinaryFrame chunks)))
         (set_calls
            (calls w ++ map (fun b => WsSend Captions (BinaryFrame b)) chunks)
            w)).
Proof.
  induction chunks as [| b chunks IH]; intros w ws Hws Hopen; simpl.
  - rewrite !app_nil_r. destruct w, ws; simpl in *; subst; reflexivity.
  - erewrite bind_normal by apply sendAudioChunk_spec.
    rewrite Hws, Hopen.
    erewrite IH by (simpl; reflexivity || exact Hopen).
    simpl. rewrite <- !app_assoc. reflexivity.
Qed.

(** X6. Audio chunks handed to [sendAudioChunk] while the captions socket is
    open go out as binary frames, one per chunk, in order, and nothing else
    changes; while it is not open, every one of them is dropped. *)
Theorem audio_chunks_sent_in_order (chunks : list string) (w : World) :
  (is_open Captions w = true ->
   let w' := exec (forEach WebSocketManager.sendAudioChunk chunks) w in
   result (forEach WebSocketManager.sendAudioChunk chunks) w = Normal tt /\
   sent_on Captions w' = (sent_on Captions w ++ map BinaryFrame chunks)%list /\
   is_open Captions w' = true /\
   state_of (set_captionsWs (captionsWs w) w') = state_of w) /\
  (is_open Captions w = false ->
   forEach WebSocketManager.sendAudioChunk chunks w = (Normal tt, w)).
Proof.
  split.
  - intros H w'. subst w'.
    unfold is_open, sent_on in *; simpl in H |- *.
    destruct (captionsWs w) as [ws |] eqn:Hws; [| discriminate].
    assert (Hopen : readyState ws = OPEN) by (destruct (readyState ws); easy).
    unfold result, exec. rewrite (sendAudioChunks_open chunks w ws Hws Hopen).
    simpl. repeat split.
    destruct w; simpl in *; subst; reflexivity.
  - intros H. unfold is_open in H; simpl in H.
    induction chunks as [| b chunks IH]; simpl; [reflexivity |].
    erewrite bind_normal by apply sendAudioChunk_spec.
    destruct (captionsWs w) as [ws |]; [rewrite H |]; exact IH.
Qed.

End Outbound.

(** ** The offering side *)

Section Offering.
Context {P : Platform}.

Lemma handle_peer_joined_calls (room : string) (m : SignalingMessage) (w : World) :
  type m = PeerJoined ->
  let tr := calls_of (VideoCall.handleSignalingMessage room m) w in
  tr = [] \/
  tr = [PcCreateOffer] \/
  (exists blob, tr = [PcCreateOffer; PcSetLocalDescription blob]) \/
  (exists blob,
     tr = [PcCreateOffer; PcSetLocalDescription blob;
           WsSend Signaling (TextFrame (mkMessage Offer room blob))]).
Proof.
  intros Ht tr. subst tr.
  unfold VideoCall.handleSignalingMessage. rewrite Ht.
  set (handler := fun error : Exn => console_write _).
  destruct (peerConnection w) as [pc |] eqn:Hpc.
  - pose proof (createOffer_some w pc Hpc) as H1.
    destruct (pc_createOffer pc) as [[e | blob] pc1].
    + right; left. apply calls_of_app. unfold exec.
      rewrite (try_catch_throw _ handler _ _ _ (bind_throw _ _ _ _ _ H1)).
      reflexivity.
    + destruct (pc_setLocalDescription blob pc1) as [[e | []] pc2].
      * right; right; left. exists blob. apply calls_of_app. unfold exec.
        rewrite (try_catch_throw _ handler _ _ _ (bind_throw _ _ _ _ _ H1)).
        reflexivity.
      * set (w1 := set_peerConnection _ _) in H1.
        match goal with |- context [calls_of ?h w] =>
          assert (Hrun : h w =
            WebSocketManager.sendSignaling (mkMessage Offer room blob) w1)
        end.
        { unfold try_catch. rewrite (bind_normal _ _ _ _ _ H1).
          rewrite sendSignaling_spec. reflexivity. }
        rewrite sendSignaling_spec in Hrun.
        destruct (signalingWs w1) as [ws |] eqn:Hws.
        -- destruct (ReadyState_eqb (readyState ws) OPEN).
           ++ right; right; right. exists blob.
              apply calls_of_app. unfold exec. rewrite Hrun.
              simpl. rewrite <- !app_assoc. reflexivity.
           ++ right; right; left. exists blob.
              apply calls_of_app. unfold exec. rewrite Hrun. reflexivity.
        -- right; right; left. exists blob.
           apply calls_of_app. unfold exec. rewrite Hrun. reflexivity.
  - left. apply calls_of_app. unfold exec.
    rewrite (try_catch_throw _ handler _ _ _
               (bind_throw _ _ _ _ _ (createOffer_none _ Hpc))).
    simpl. rewrite app_nil_r. reflexivity.
Qed.

Lemma handle_peer_joined_offered (room : string) (m : SignalingMessage) (w : World)
    (pc pc1 pc2 : RTCPeerConnection) (blob : JSValue) (ws : WebSocket) :
  type m = PeerJoined ->
  peerConnection w = Some pc ->
  pc_createOffer pc = (inr blob, pc1) ->
  pc_setLocalDescription blob pc1 = (inr tt, pc2) ->
  signalingWs w = Some ws ->
  readyState ws = OPEN ->
  VideoCall.handleSignalingMessage room m w =
    (Normal tt,
     set_signalingWs
       (Some (WebSocketManager.ws_send
                (TextFrame (mkMessage Offer room blob)) ws))
       (set_peerConnection (Some pc2)
          (set_calls
             (calls w ++
              [PcCreateOffer; PcSetLocalDescription blob;
               WsSend Signaling (TextFrame (mkMessage Offer room blob))])
             w))).
Proof.
  intros Ht Hpc Ho Hl Hws Hopen.
  unfold VideoCall.handleSignalingMessage. rewrite Ht.
  pose proof (createOffer_some w pc Hpc) as H1.
  rewrite Ho, Hl in H1.
  set (w1 := set_peerConnection _ _) in H1.
  unfold try_catch. rewrite (bind_normal _ _ _ _ _ H1).
  rewrite sendSignaling_spec.
  assert (Hws1 : signalingWs w1 = Some ws) by exact Hws.
  rewrite Hws1, Hopen. simpl. rewrite <- !app_assoc. reflexivity.
Qed.

(** X7. A ['peer-joined'] envelope never makes the handler throw, and the
    calls it makes are a prefix of: create an offer, set it as local
    description, send one ['offer'] envelope with that blob and the
    session's [roomId]; it never touches the remote description.  The offer
    goes out, exactly once, when a peer connection exists, the platform
    accepts both steps and the signalling socket is open; the payload and
    the [roomId] of the ['peer-joined'] envelope play no part. *)
Theorem peer_joined_offered_once
    (room : string) (m : SignalingMessage) (w : World) :
  type m = PeerJoined ->
  result (VideoCall.handleSignalingMessage room m) w = Normal tt /\
  (let tr := calls_of (VideoCall.handleSignalingMessage room m) w in
   tr = [] \/
   tr = [PcCreateOffer] \/
   (exists blob, tr = [PcCreateOffer; PcSetLocalDescription blob]) \/
   (exists blob,
      tr = [PcCreateOffer; PcSetLocalDescription blob;
            WsSend Signaling (TextFrame (mkMessage Offer room blob))])) /\
  (forall pc pc1 pc2 blob ws,
     peerConnection w = Some pc ->
     pc_createOffer pc = (inr blob, pc1) ->
     pc_setLocalDescription blob pc1 = (inr tt, pc2) ->
     signalingWs w = Some ws ->
     readyState ws = OPEN ->
     let w' := exec (VideoCall.handleSignalingMessage room m) w in
     calls_of (VideoCall.handleSignalingMessage room m) w =
       [PcCreateOffer; PcSetLocalDescription blob;
        WsSend Signaling (TextFrame (mkMessage Offer room blob))] /\
     sent_on Signaling w' =
       (sent ws ++ [TextFrame (mkMessage Offer room blob)])%list /\
     peerConnection w' = Some pc2 /\
     console w' = console w).
Proof.
  intros Ht. split; [apply handleSignalingMessage_total |].
  split; [apply handle_peer_joined_calls; exact Ht |].
  intros pc pc1 pc2 blob ws Hpc Ho Hl Hws Hopen w'. subst w'.
  split; [apply calls_of_app |]; unfold exec;
    rewrite (handle_peer_joined_offered room m w _ _ _ _ _ Ht Hpc Ho Hl Hws Hopen).
  - reflexivity.
  - repeat split.
Qed.

End Offering.

(** ** Two browsers *)

Section Handshake.
Context {P : Platform}.

Lemma signaling_message_json (room : string) (m : SignalingMessage) (w : World) :
  VideoCall.signaling_message room (json m) w =
  VideoCall.handleSignalingMessage room m w.
Proof.
  unfold VideoCall.signaling_message, WebSocketManager.signaling_onmessage,
    JSON_parse, bind, ret.
  destruct (VideoCall.handleSignalingMessage room m w) as [[] w']; reflexivity.
Qed.

(** X8. The offer and answer exchange between two sessions [A] and [B] of
    one room, when both have a peer connection and an open signalling
    socket and the platform accepts every step.  [A] is told that a peer
    joined and sends one ['offer'] envelope; [B] receives that frame and
    sends one ['answer'] envelope; [A] receives that frame.  The blob [B]'s
    platform gets as remote description is the one [A]'s platform created,
    and the other way round; each side sends one envelope and no more, both
    for the room; nothing is logged. *)
Theorem handshake_carries_the_blobs
    (room : string) (joined : SignalingMessage) (wA wB : World)
    (pcA pcA1 pcA2 pcA3 pcB pcB1 pcB2 pcB3 : RTCPeerConnection)
    (o a : JSValue) (wsA wsB : WebSocket) :
  type joined = PeerJoined ->
  peerConnection wA = Some pcA ->
  signalingWs wA = Some wsA -> readyState wsA = OPEN ->
  peerConnection wB = Some pcB ->
  signalingWs wB = Some wsB -> readyState wsB = OPEN ->
  pc_createOffer pcA = (inr o, pcA1) ->
  pc_setLocalDescription o pcA1 = (inr tt, pcA2) ->
  pc_setRemoteDescription o pcB = (inr tt, pcB1) ->
  pc_createAnswer pcB1 = (inr a, pcB2) ->
  pc_setLocalDescription a pcB2 = (inr tt, pcB3) ->
  pc_setRemoteDescription a pcA2 = (inr tt, pcA3) ->
  let offer_envelope := mkMessage Offer room o in
  let answer_envelope := mkMessage Answer room a in
  let wA1 := exec (VideoCall.handleSignalingMessage room joined) wA in
  let wB1 := exec (VideoCall.signaling_message room (json offer_envelope)) wB in
  let wA2 := exec (VideoCall.signaling_message room (json answer_envelope)) wA1 in
  sent_on Signaling wA1 = (sent wsA ++ [TextFrame offer_envelope])%list /\
  sent_on Signaling wB1 = (sent wsB ++ [TextFrame answer_envelope])%list /\
  sent_on Signaling wA2 = sent_on Signaling wA1 /\
  calls wA2 =
    (calls wA ++
     [PcCreateOffer; PcSetLocalDescription o;
      WsSend Signaling (TextFrame offer_envelope);
      PcSetRemoteDescription a])%list /\
  calls wB1 =
    (calls wB ++
     [PcSetRemoteDescription o; PcCreateAnswer; PcSetLocalDescription a;
      WsSend Signaling (TextFrame answer_envelope)])%list /\
  peerConnection wA2 = Some pcA3 /\
  peerConnection wB1 = Some pcB3 /\
  console wA2 = console wA /\
  console wB1 = console wB.
Proof.
  intros Ht HpcA HwsA HopenA HpcB HwsB HopenB Ho HlA HrB Ha HlB HrA
         offer_envelope answer_envelope wA1 wB1 wA2.
  assert (HA1 : wA1 =
    set_signalingWs
      (Some (WebSocketManager.ws_send (TextFrame offer_envelope) wsA))
      (set_peerConnection (Some pcA2)
         (set_calls
            (calls wA ++
             [PcCreateOffer; PcSetLocalDescription o;
              WsSend Signaling (TextFrame offer_envelope)]) wA))).
  { unfold wA1, exec.
    rewrite (handle_peer_joined_offered room joined wA _ _ _ _ _
               Ht HpcA Ho HlA HwsA HopenA). reflexivity. }
  assert (HB1 : wB1 =
    set_signalingWs
      (Some (WebSocketManager.ws_send (TextFrame answer_envelope) wsB))
      (set_peerConnection (Some pcB3)
         (set_calls
            (calls wB ++
             [PcSetRemoteDescription o; PcCreateAnswer; PcSetLocalDescription a;
              WsSend Signaling (TextFrame answer_envelope)]) wB))).
  { unfold wB1, exec. rewrite signaling_message_json.
    rewrite (handle_offer_answered room offer_envelope wB _ _ _ _ _ _
               eq_refl HpcB HrB Ha HlB HwsB HopenB). reflexivity. }
  assert (HA2 : wA2 =
    set_peerConnection (Some pcA3)
      (set_calls (calls wA1 ++ [PcSetRemoteDescription a]) wA1)).
  { unfold wA2, exec, answer_envelope. rewrite signaling_message_json.
    assert (Hpc1 : peerConnection wA1 = Some pcA2) by (rewrite HA1; reflexivity).
    rewrite (handle_answer room room a wA1 pcA2 Hpc1). rewrite HrA. reflexivity. }
  rewrite HA2, HB1, HA1. unfold sent_on; simpl.
  rewrite <- !app_assoc. repeat split.
Qed.

End Handshake.

(** ** After the teardown, and on the captions socket *)

Section Aftermath.
Context {P : Platform}.

Lemma ws_close_not_open (ws : WebSocket) :
  ReadyState_eqb (readyState (WebSocketManager.ws_close ws)) OPEN = false.
Proof. destruct ws as [u [] s]; reflexivity. Qed.

Lemma cleanup_closes (ch : Channel) (w : World) :
  is_open ch (exec VideoCall.cleanup w) = false.
Proof.
  unfold exec. rewrite VideoCall_cleanup_spec. unfold is_open.
  destruct ch; simpl.
  - destruct (signalingWs w) as [ws |]; simpl;
      [apply ws_close_not_open | reflexivity].
  - destruct (captionsWs w) as [ws |]; simpl;
      [apply ws_close_not_open | reflexivity].
Qed.

(** X9. After [cleanup] the session is inert.  An envelope of kind
    ['peer-joined'], ['offer'], ['answer'] or ['ice-candidate'] that still
    arrives only logs 'Peer connection not initialized': no platform call is
    made and nothing is sent.  Every [sendSignaling], every [sendAudioChunk]
    and every local candidate is dropped without a trace. *)
Theorem nothing_happens_after_cleanup
    (room : string) (m : SignalingMessage) (audioBlob : string)
    (e : option JSValue) (w : World) :
  let w' := exec VideoCall.cleanup w in
  (type m <> PeerLeft -> type m <> JoinRoom ->
   VideoCall.handleSignalingMessage room m w' =
     (Normal tt,
      set_console
        (console w' ++
         [console_error "Error handling signaling message:" not_initialized])
        w')) /\
  WebSocketManager.sendSignaling m w' = (Normal tt, w') /\
  WebSocketManager.sendAudioChunk audioBlob w' = (Normal tt, w') /\
  PeerConnectionEvents.local_candidate room e w' = (Normal tt, w').
Proof.
  intros w'.
  assert (Hpc : peerConnection w' = None) by apply cleanup_releases.
  pose proof (cleanup_closes Signaling w) as Hs.
  pose proof (cleanup_closes Captions w) as Hc.
  fold w' in Hs, Hc.
  split; [| split; [| split]].
  - intros H1 H2. unfold VideoCall.handleSignalingMessage.
    set (handler := fun error : Exn => console_write _).
    destruct (type m); try contradiction.
    + rewrite (try_catch_throw _ handler _ _ _
                 (bind_throw _ _ _ _ _ (setRemoteDescription_none _ _ Hpc))).
      reflexivity.
    + rewrite (try_catch_throw _ handler _ _ _ (setRemoteDescription_none _ _ Hpc)).
      reflexivity.
    + rewrite (try_catch_throw _ handler _ _ _ (addIceCandidate_none _ _ Hpc)).
      reflexivity.
    + rewrite (try_catch_throw _ handler _ _ _
                 (bind_throw _ _ _ _ _ (createOffer_none _ Hpc))).
      reflexivity.
  - rewrite sendSignaling_spec. unfold is_open in Hs; simpl in Hs.
    destruct (signalingWs w') as [ws |]; [rewrite Hs |]; reflexivity.
  - rewrite sendAudioChunk_spec. unfold is_open in Hc; simpl in Hc.
    destruct (captionsWs w') as [ws |]; [rewrite Hc |]; reflexivity.
  - apply local_candidate_not_open. exact Hs.
Qed.

Lemma captions_frames_run (frames : list (EventData CaptionMessage)) (w : World) :
  run_events (map VideoCall.captions_message frames) w =
  set_captions (captions w ++ parsed frames) w.
Proof.
  revert w. induction frames as [| f frames IH]; intros w.
  - simpl. rewrite app_nil_r. destruct w; reflexivity.
  - simpl map. rewrite run_events_cons, IH.
    destruct f as [c | raw]; simpl.
    + rewrite <- app_assoc. reflexivity.
    + reflexivity.
Qed.

(** X10. Frames on the captions socket of which each is the JSON of a
    caption message or is not JSON at all (a frame that parses to a value of
    another shape is not covered): the transcript is the caption messages,
    in arrival order, added to what was there; a frame that is not JSON is
    skipped and does not disturb the frames after it; nothing but the
    captions changes.  Both displayed transcripts grow at the end, each by
    its own speaker's events in their order. *)
Theorem captions_keep_arrival_order
    (frames : list (EventData CaptionMessage)) (w : World) :
  let w' := run_events (map VideoCall.captions_message frames) w in
  w' = set_captions (captions w ++ parsed frames) w /\
  VideoCall.You_captions w' =
    (VideoCall.You_captions w ++ filter VideoCall.is_You (parsed frames))%list /\
  VideoCall.Remote_captions w' =
    (VideoCall.Remote_captions w ++
     filter (fun c => negb (VideoCall.is_You c)) (parsed frames))%list.
Proof.
  intros w'. subst w'. rewrite captions_frames_run.
  unfold VideoCall.You_captions, VideoCall.Remote_captions. simpl.
  rewrite !filter_app. repeat split.
Qed.

End Aftermath.

(** ** Muting *)

Section Muting.
Context {P : Platform}.

Lemma set_enabled_shape (k : TrackKind) (b : bool) (t : MediaStreamTrack) :
  track_id (WebRTCManager.set_enabled k b t) = track_id t /\
  kind (WebRTCManager.set_enabled k b t) = kind t /\
  stopped (WebRTCManager.set_enabled k b t) = stopped t.
Proof. destruct t as [i [] e s], k; repeat split. Qed.

Lemma set_enabled_same (k : TrackKind) (b : bool) (t : MediaStreamTrack) :
  kind t = k -> enabled (WebRTCManager.set_enabled k b t) = b.
Proof. intros <-. destruct t as [i [] e s]; reflexivity. Qed.

Lemma set_enabled_twice (k : TrackKind) (b b' : bool) (t : MediaStreamTrack) :
  WebRTCManager.set_enabled k b (WebRTCManager.set_enabled k b' t) =
  WebRTCManager.set_enabled k b t.
Proof. destruct t as [i [] e s], k; reflexivity. Qed.

Lemma set_enabled_commute (a v : bool) (t : MediaStreamTrack) :
  WebRTCManager.set_enabled audio a (WebRTCManager.set_enabled video v t) =
  WebRTCManager.set_enabled video v (WebRTCManager.set_enabled audio a t).
Proof. destruct t as [i [] e s]; reflexivity. Qed.

Lemma set_enabled_restores (k : TrackKind) (b : bool) (t : MediaStreamTrack) :
  (kind t = k -> enabled t = b) -> WebRTCManager.set_enabled k b t = t.
Proof.
  destruct t as [i [] e s], k; simpl; intros H; try reflexivity;
    rewrite <- (H eq_refl); reflexivity.
Qed.

(** X11. [toggleAudio(enabled)] never throws and changes nothing but the
    [enabled] flag of the audio tracks of the local stream: afterwards every
    audio track has the flag asked for, every video track is as it was, and
    the tracks are the same ones in the same order (identity, kind and
    ended state).  Without a local stream it does nothing.  [toggleVideo]
    is the same with the kinds exchanged. *)
Theorem toggle_touches_its_kind_only (b : bool) (w : World) :
  let after_audio := exec (WebRTCManager.toggleAudio b) w in
  let after_video := exec (WebRTCManager.toggleVideo b) w in
  result (WebRTCManager.toggleAudio b) w = Normal tt /\
  result (WebRTCManager.toggleVideo b) w = Normal tt /\
  after_audio = set_localStream (localStream after_audio) w /\
  after_video = set_localStream (localStream after_video) w /\
  (localStream w = None -> after_audio = w /\ after_video = w) /\
  (forall s, localStream w = Some s ->
     exists sa sv,
       localStream after_audio = Some sa /\
       localStream after_video = Some sv /\
       map track_id sa = map track_id s /\ map track_id sv = map track_id s /\
       map kind sa = map kind s /\ map kind sv = map kind s /\
       map stopped sa = map stopped s /\ map stopped sv = map stopped s /\
       Forall (fun t => kind t = audio -> enabled t = b) sa /\
       Forall (fun t => kind t = video -> enabled t = b) sv /\
       filter (fun t => match kind t with video => true | audio => false end) sa =
       filter (fun t => match kind t with video => true | audio => false end) s /\
       filter (fun t => match kind t with audio => true | video => false end) sv =
       filter (fun t => match kind t with audio => true | video => false end) s).
Proof.
  intros after_audio after_video. subst after_audio after_video.
  unfold exec, result, WebRTCManager.toggleAudio, WebRTCManager.toggleVideo,
    modify; simpl.
  split; [reflexivity |]. split; [reflexivity |].
  split; [reflexivity |]. split; [reflexivity |].
  split.
  - intros H. rewrite H. simpl. destruct w; simpl in *; subst; split; reflexivity.
  - intros s H. rewrite H. simpl.
    exists (map (WebRTCManager.set_enabled audio b) s),
           (map (WebRTCManager.set_enabled video b) s).
    split; [reflexivity |]. split; [reflexivity |].
    rewrite !map_map.
    repeat split.
    1-6: apply map_ext; intros t; apply set_enabled_shape.
    + apply Forall_forall. intros t Ht. apply in_map_iff in Ht.
      destruct Ht as (t0 & <- & _). intros Hk.
      apply set_enabled_same.
      rewrite <- Hk. symmetry. apply set_enabled_shape.
    + apply Forall_forall. intros t Ht. apply in_map_iff in Ht.
      destruct Ht as (t0 & <- & _). intros Hk.
      apply set_enabled_same.
      rewrite <- Hk. symmetry. apply set_enabled_shape.
    + clear H. induction s as [| t s IH]; [reflexivity |].
      simpl. destruct t as [i [] e st]; simpl; rewrite IH; reflexivity.
    + clear H. induction s as [| t s IH]; [reflexivity |].
      simpl. destruct t as [i [] e st]; simpl; rewrite IH; reflexivity.
Qed.

(** X12. The two toggles do not interfere: muting the microphone and
    switching the camera commute, and of two settings of the same kind the
    later one wins (so setting the same value twice is setting it once). *)
Theorem toggles_commute_and_last_wins (a a' v v' : bool) (w : World) :
  exec (WebRTCManager.toggleAudio a) (exec (WebRTCManager.toggleVideo v) w) =
  exec (WebRTCManager.toggleVideo v) (exec (WebRTCManager.toggleAudio a) w) /\
  exec (WebRTCManager.toggleAudio a) (exec (WebRTCManager.toggleAudio a') w) =
  exec (WebRTCManager.toggleAudio a) w /\
  exec (WebRTCManager.toggleVideo v) (exec (WebRTCManager.toggleVideo v') w) =
  exec (WebRTCManager.toggleVideo v) w.
Proof.
  unfold exec, WebRTCManager.toggleAudio, WebRTCManager.toggleVideo, modify.
  destruct w as [pc [s |] sws cws url ic cs caps con ts loc cl]; simpl;
    [| repeat split].
  unfold set_localStream; simpl. rewrite !map_map.
  split; [| split]; do 2 f_equal; apply map_ext; intros t.
  - apply set_enabled_commute.
  - apply set_enabled_twice.
  - apply set_enabled_twice.
Qed.

(** X13. The microphone button: pressing it flips [isAudioEnabled], gives
    every audio track the new value and changes nothing but the local
    stream; pressing it twice restores the flag, and restores the whole
    state when the audio tracks agreed with the flag before (as they do from
    the start of a call, where both are [true]).  The camera button does
    the same with [isVideoEnabled] and the video tracks. *)
Theorem button_pressed_twice (s : Controls.State) (w : World) :
  let twice_audio := (s1 <- Controls.toggleAudio s ;; Controls.toggleAudio s1) in
  let twice_video := (s1 <- Controls.toggleVideo s ;; Controls.toggleVideo s1) in
  result (Controls.toggleAudio s) w =
    Normal (Controls.mkState (negb (Controls.isAudioEnabled s))
              (Controls.isVideoEnabled s)) /\
  localStream (exec (Controls.toggleAudio s) w) =
    option_map (map (WebRTCManager.set_enabled audio
                       (negb (Controls.isAudioEnabled s)))) (localStream w) /\
  result twice_audio w = Normal s /\
  result twice_video w = Normal s /\
  ((forall stream, localStream w = Some stream ->
      Forall (fun t => kind t = audio -> enabled t = Controls.isAudioEnabled s)
        stream) ->
   exec twice_audio w = w) /\
  ((forall stream, localStream w = Some stream ->
      Forall (fun t => kind t = video -> enabled t = Controls.isVideoEnabled s)
        stream) ->
   exec twice_video w = w) /\
  result (Controls.toggleVideo s) w =
    Normal (Controls.mkState (Controls.isAudioEnabled s)
              (negb (Controls.isVideoEnabled s))) /\
  localStream (exec (Controls.toggleVideo s) w) =
    option_map (map (WebRTCManager.set_enabled video
                       (negb (Controls.isVideoEnabled s)))) (localStream w) /\
  exec (Controls.toggleAudio s) w =
    set_localStream (localStream (exec (Controls.toggleAudio s) w)) w /\
  exec (Controls.toggleVideo s) w =
    set_localStream (localStream (exec (Controls.toggleVideo s) w)) w.
Proof.
  intros twice_audio twice_video. subst twice_audio twice_video.
  destruct s as [sa sv].
  unfold result, exec, Controls.toggleAudio, Controls.toggleVideo,
    WebRTCManager.toggleAudio, WebRTCManager.toggleVideo, bind, modify, ret;
    simpl.
  rewrite !negb_involutive.
  split; [reflexivity |]. split; [reflexivity |].
  split; [reflexivity |]. split; [reflexivity |].
  assert (Hrestore :
    forall (k : TrackKind) (b : bool) (stream : MediaStream),
      Forall (fun t => kind t = k -> enabled t = b) stream ->
      map (WebRTCManager.set_enabled k b)
        (map (WebRTCManager.set_enabled k (negb b)) stream) = stream).
  { intros k b stream H. rewrite map_map.
    rewrite <- (map_id stream) at 2. apply map_ext_in. intros t Ht.
    rewrite set_enabled_twice. apply set_enabled_restores.
    rewrite Forall_forall in H. apply (H t Ht). }
  split; [| split; [| split; [| split; [| split]]]]; try reflexivity.
  - intros H. destruct w as [pc [s |] sws cws url ic cs caps con ts loc cl];
      simpl; [| reflexivity].
    unfold set_localStream; simpl. rewrite (Hrestore audio sa s (H s eq_refl)).
    reflexivity.
  - intros H. destruct w as [pc [s |] sws cws url ic cs caps con ts loc cl];
      simpl; [| reflexivity].
    unfold set_localStream; simpl. rewrite (Hrestore video sv s (H s eq_refl)).
    reflexivity.
Qed.

End Muting.

(** ** Invariants of a mounted component *)

Section Invariants.
Context {P : Platform}.

Lemma settled_refl (w : World) : Component.settled w w.
Proof.
  unfold Component.settled. repeat split; auto.
  - exists []. symmetry. apply app_nil_r.
  - exists []. split; [symmetry; apply app_nil_r | reflexivity].
Qed.

Lemma settled_trans (a b c : World) :
  Component.settled a b -> Component.settled b c -> Component.settled a c.
Proof.
  unfold Component.settled.
  intros ((m1 & H1) & (t1 & H2 & H2') & H3 & H4 & H5 & H6 & H7)
         ((m2 & K1) & (t2 & K2 & K2') & K3 & K4 & K5 & K6 & K7).
  split; [exists (m1 ++ m2)%list; rewrite K1, H1, app_assoc; reflexivity |].
  split.
  - exists (t1 ++ t2)%list. split.
    + rewrite K2, H2, app_assoc. reflexivity.
    + rewrite existsb_app, H2', K2'. reflexivity.
  - repeat split; auto; congruence.
Qed.

Lemma negotiation_not_creation (tr : list Call) :
  forallb negotiation_call tr = true ->
  existsb Component.creation_call tr = false.
Proof.
  induction tr as [| c tr IH]; simpl; [reflexivity |].
  intros H. apply andb_true_iff in H. destruct H as [Hc Htr].
  rewrite (IH Htr), orb_false_r.
  destruct c as [| | | | | | | | | | ch f |]; try discriminate; try reflexivity.
Qed.

Lemma confined_settled (w w' : World) : confined w w' -> Component.settled w w'.
Proof.
  unfold confined, Component.settled.
  intros (H1 & H2 & H3 & H4 & H5 & H6 & H7 & _ & (tr & H9 & H9') & _).
  split; [exists []; rewrite H2, app_nil_r; reflexivity |].
  split; [exists tr; split; [exact H9 | apply negotiation_not_creation, H9'] |].
  split; [apply H6 |]. split; [congruence |].
  split.
  - unfold socket_advanced in H7.
    destruct (signalingWs w), (signalingWs w'); simpl; try tauto.
    destruct H7 as (-> & _). reflexivity.
  - split; congruence.
Qed.

(** A step that changes no field [settled] speaks of but appends to the
    transcript. *)
Local Ltac settled_leaf :=
  intros w; unfold Component.settled; simpl;
  split; [eexists; first [reflexivity | symmetry; apply app_nil_r] |];
  split; [eexists; split;
            [first [reflexivity | symmetry; apply app_nil_r] | reflexivity] |];
  repeat split; auto.

Lemma settled_sendSignaling (m : SignalingMessage) :
  keeps Component.settled (WebSocketManager.sendSignaling m).
Proof. intros w. apply confined_settled, confined_sendSignaling. Qed.

Lemma settled_console_write (entry : LogEntry) :
  keeps Component.settled (console_write entry).
Proof. intros w. apply confined_settled, confined_console_write. Qed.

Lemma settled_socket_state (ch : Channel) (s : ReadyState) :
  keeps Component.settled
    (modify (fun w =>
       WebSocketManager.set_socket ch
         (option_map (fun ws => mkWebSocket (url ws) s (sent ws))
            (WebSocketManager.socket ch w)) w)).
Proof.
  intros w. unfold exec, modify; simpl. unfold Component.settled.
  destruct ch; simpl.
  - destruct (signalingWs w); simpl; repeat split; auto;
      try (exists []; try split; try reflexivity; symmetry; apply app_nil_r).
  - destruct (captionsWs w); simpl; repeat split; auto;
      try (exists []; try split; try reflexivity; symmetry; apply app_nil_r).
Qed.

Lemma release_calls_not_creation (w : World) :
  existsb Component.creation_call (release_calls w ++ disconnect_calls w) = false.
Proof.
  unfold release_calls, disconnect_calls. rewrite !existsb_app.
  assert (Ht : forall tracks : list MediaStreamTrack,
             existsb Component.creation_call
               (map (fun t => TrackStop (track_id t)) tracks) = false).
  { induction tracks as [| t tracks IH]; simpl; [reflexivity | exact IH]. }
  destruct (localStream w) as [tracks |]; [rewrite Ht |];
    destruct (peerConnection w), (signalingWs w), (captionsWs w); reflexivity.
Qed.

Lemma settled_cleanup : keeps Component.settled VideoCall.cleanup.
Proof.
  intros w. unfold exec. rewrite VideoCall_cleanup_spec. simpl.
  unfold Component.settled; simpl.
  split; [exists []; symmetry; apply app_nil_r |].
  split; [eexists; split; [reflexivity | apply release_calls_not_creation] |].
  repeat split; auto.
  - destruct (signalingWs w) as [[u [] s] |]; reflexivity.
  - destruct (captionsWs w) as [[u [] s] |]; reflexivity.
Qed.

Lemma settled_toggle (k : TrackKind) (b : bool) :
  keeps Component.settled
    (modify (fun w =>
       set_localStream
         (option_map (map (WebRTCManager.set_enabled k b)) (localStream w)) w)).
Proof.
  apply keeps_modify. settled_leaf. intros H. rewrite H. reflexivity.
Qed.

Lemma settled_handle (room : string) (e : Component.Event) :
  keeps Component.settled (Component.handle room e).
Proof.
  destruct e as [[] | [] | [] error | [m | raw] | [c | raw] | [c |] | []
                 | state | b | b | |]; simpl Component.handle.
  - (* signalling socket opened *)
    apply (keeps_bind _ settled_trans); [apply settled_socket_state | intros _].
    apply (keeps_bind _ settled_trans);
      [apply settled_console_write | intros _; apply settled_sendSignaling].
  - apply (keeps_bind _ settled_trans);
      [apply settled_socket_state | intros _; apply settled_console_write].
  - apply (keeps_bind _ settled_trans);
      [apply settled_socket_state | intros _; apply settled_console_write].
  - apply (keeps_bind _ settled_trans);
      [apply settled_socket_state | intros _; apply settled_console_write].
  - apply settled_console_write.
  - apply settled_console_write.
  - (* a signalling frame *)
    intros w. apply confined_settled. unfold exec.
    rewrite signaling_message_json. apply confined_handleSignalingMessage.
  - intros w. apply settled_refl.
  - (* a caption *)
    apply keeps_modify. settled_leaf.
  - intros w. apply settled_refl.
  - apply settled_sendSignaling.
  - intros w. apply settled_refl.
  - (* a remote track, video element mounted *)
    unfold PeerConnectionEvents.remote_track, PeerConnectionEvents.ontrack,
      VideoCall.onTrack.
    apply (keeps_bind _ settled_trans); [apply keeps_modify; settled_leaf |].
    intros _.
    apply (keeps_bind _ settled_trans); [apply keeps_modify; settled_leaf |].
    intros _. apply keeps_modify. settled_leaf.
  - intros w. apply settled_refl.
  - apply settled_console_write.
  - apply settled_toggle.
  - apply settled_toggle.
  - apply settled_cleanup.
  - apply (keeps_bind _ settled_trans); [apply settled_cleanup | intros _].
    apply keeps_modify. settled_leaf.
Qed.

(** X14. Once a call is set up, no event makes or revives anything.
    Whatever events reach the component (socket events, frames, candidates,
    tracks, buttons, unmounting), in whatever order: the transcript only grows
    at the end; no socket and no peer connection is created, so the program
    attempts no reconnection; a peer connection or a local stream that was
    released stays released; and the sockets keep their URLs. *)
Theorem events_create_nothing
    (room : string) (events : list Component.Event) (w : World) :
  Component.settled w (run_events (map (Component.handle room) events) w).
Proof.
  apply (keeps_run_events _ settled_refl settled_trans).
  apply Forall_forall. intros h Hh. apply in_map_iff in Hh.
  destruct Hh as (e & <- & _). apply settled_handle.
Qed.

End Invariants.

(** ** The two indicators *)

Section Indicators.
Context {P : Platform}.

Lemma untouched_refl (w : World) : Component.indicators_untouched w w.
Proof. split; reflexivity. Qed.

Lemma untouched_trans (a b c : World) :
  Component.indicators_untouched a b -> Component.indicators_untouched b c ->
  Component.indicators_untouched a c.
Proof. intros [H1 H2] [K1 K2]. split; congruence. Qed.

Lemma indicators_refl (w : World) : Component.indicators w w.
Proof. left. split; reflexivity. Qed.

Lemma indicators_trans (a b c : World) :
  Component.indicators a b -> Component.indicators b c ->
  Component.indicators a c.
Proof.
  unfold Component.indicators.
  intros H [[K1 K2] | K]; [| right; exact K].
  destruct H as [[H1 H2] | [[H1 H2] | [H1 H2]]].
  - left. split; congruence.
  - right; left. split; congruence.
  - right; right. split; congruence.
Qed.

Lemma untouched_indicators {A} (m : M A) :
  keeps Component.indicators_untouched m -> keeps Component.indicators m.
Proof. intros H w. left. apply H. Qed.

Lemma untouched_await_pc {A} (c : Call)
    (method : RTCPeerConnection -> (PlatformError + A) * RTCPeerConnection) :
  keeps Component.indicators_untouched (WebRTCManager.await_pc c method).
Proof.
  intros w. unfold exec, WebRTCManager.await_pc.
  destruct (peerConnection w) as [pc |]; [| apply untouched_refl].
  destruct (method pc) as [[e | a] pc1]; split; reflexivity.
Qed.

(** Decomposes a computation that writes neither indicator. *)
Local Ltac untouched :=
  repeat first
    [ apply (keeps_ret _ untouched_refl)
    | apply (keeps_throw _ untouched_refl)
    | apply (keeps_gets _ untouched_refl)
    | apply (keeps_bind _ untouched_trans)
    | apply (keeps_try_catch _ untouched_trans)
    | apply (keeps_forEach _ untouched_refl untouched_trans)
    | apply untouched_await_pc
    | apply keeps_modify; intros ?; split; reflexivity
    | match goal with
      | |- keeps _ (match ?x with _ => _ end) => destruct x
      end
    | intros ? ].

Lemma indicators_handleSignalingMessage (room : string) (m : SignalingMessage) :
  keeps Component.indicators (VideoCall.handleSignalingMessage room m).
Proof.
  destruct (type m) eqn:Ht.
  6: { (* peer-left *)
    intros w. right; left.
    unfold exec, VideoCall.handleSignalingMessage. rewrite Ht.
    split; reflexivity. }
  all: apply untouched_indicators;
    unfold VideoCall.handleSignalingMessage; rewrite Ht;
    unfold WebRTCManager.createOffer, WebRTCManager.createAnswer,
      WebRTCManager.setRemoteDescription, WebRTCManager.addIceCandidate,
      WebSocketManager.sendSignaling, record_call, console_write;
    untouched.
Qed.

Lemma indicators_cleanup : keeps Component.indicators VideoCall.cleanup.
Proof.
  intros w. right; left. unfold exec. rewrite VideoCall_cleanup_spec.
  split; reflexivity.
Qed.

Lemma indicators_handle (room : string) (e : Component.Event) :
  keeps Component.indicators (Component.handle room e).
Proof.
  destruct e as [[] | [] | [] error | [m | raw] | [c | raw] | [c |] | []
                 | state | b | b | |]; simpl Component.handle.
  7: { intros w. unfold exec. rewrite signaling_message_json.
       apply indicators_handleSignalingMessage. }
  12: { (* a remote track, video element mounted *)
        intros w. right; right. split; reflexivity. }
  16: apply indicators_cleanup.
  16: { (* end call *)
        intros w. right; left. unfold exec, VideoCall.endCall.
        erewrite bind_normal by apply VideoCall_cleanup_spec.
        split; reflexivity. }
  all: apply untouched_indicators;
    unfold WebSocketManager.established, WebSocketManager.terminated,
      WebSocketManager.signaling_onopen, WebSocketManager.captions_onopen,
      WebSocketManager.signaling_onclose, WebSocketManager.captions_onclose,
      WebSocketManager.signaling_onerror, WebSocketManager.captions_onerror,
      VideoCall.signaling_message, VideoCall.captions_message,
      WebSocketManager.signaling_onmessage, WebSocketManager.captions_onmessage,
      JSON_parse, VideoCall.handleCaption, VideoCall.setCaptions,
      PeerConnectionEvents.local_candidate, PeerConnectionEvents.onicecandidate,
      PeerConnectionEvents.remote_track, PeerConnectionEvents.ontrack,
      PeerConnectionEvents.oniceconnectionstatechange,
      VideoCall.onIceCandidate, WebRTCManager.toggleAudio,
      WebRTCManager.toggleVideo,
      WebSocketManager.sendSignaling, record_call, console_write;
    untouched.
Qed.

Lemma indicators_keep_agreement (w w' : World) :
  Component.indicators w w' ->
  Component.indicators_agree w -> Component.indicators_agree w'.
Proof.
  unfold Component.indicators, Component.indicators_agree.
  intros [[H1 H2] | [[H1 H2] | [H1 H2]]] H; rewrite H1, H2.
  - exact H.
  - split; discriminate.
  - split; reflexivity.
Qed.

(** X15. The two indicators of the page never disagree.  From the first
    render, through [initializeCall] (media granted or refused) and any
    events after it, the call is marked connected exactly when the status is
    'connected'; every run of handlers either leaves both alone or has set
    them together, to connected or to disconnected. *)
Theorem indicators_always_agree
    (room url : string) (getUserMedia : PlatformError + MediaStream)
    (events : list Component.Event) :
  let w0 := exec (VideoCall.initializeCall room getUserMedia) (initial_world url) in
  Component.indicators_agree w0 /\
  (forall w, Component.indicators w
               (run_events (map (Component.handle room) events) w)) /\
  Component.indicators_agree
    (run_events (map (Component.handle room) events) w0).
Proof.
  intros w0.
  assert (H0 : Component.indicators_agree w0).
  { unfold w0. destruct getUserMedia as [e | stream].
    - split; discriminate.
    - unfold exec. rewrite initializeCall_granted_run. split; discriminate. }
  assert (Hrun : forall w, Component.indicators w
                   (run_events (map (Component.handle room) events) w)).
  { intros w. apply (keeps_run_events _ indicators_refl indicators_trans).
    apply Forall_forall. intros h Hh. apply in_map_iff in Hh.
    destruct Hh as (e & <- & _). apply indicators_handle. }
  split; [exact H0 |]. split; [exact Hrun |].
  exact (indicators_keep_agreement _ _ (Hrun w0) H0).
Qed.

End Indicators.

(** ** Negotiation and the rest of the page *)

Section AlikeRules.
Context {P : Platform}.
Variable R : World -> World -> Prop.

Lemma alike_ret {A} (a : A) : alike R (ret a).
Proof. intros w1 w2 H. split; [reflexivity | exact H]. Qed.

Lemma alike_throw {A} (e : Exn) : alike R (@throw P A e).
Proof. intros w1 w2 H. split; [reflexivity | exact H]. Qed.

Lemma alike_gets {A} (f : World -> A) :
  (forall w1 w2, R w1 w2 -> f w1 = f w2) -> alike R (gets f).
Proof.
  intros Hf w1 w2 H. unfold result, exec, gets; simpl.
  split; [f_equal; apply Hf; exact H | exact H].
Qed.

Lemma alike_modify (f : World -> World) :
  (forall w1 w2, R w1 w2 -> R (f w1) (f w2)) -> alike R (modify f).
Proof. intros Hf w1 w2 H. split; [reflexivity | apply Hf; exact H]. Qed.

Lemma alike_bind {A B} (m : M A) (k : A -> M B) :
  alike R m -> (forall a, alike R (k a)) -> alike R (bind m k).
Proof.
  intros Hm Hk w1 w2 H. destruct (Hm w1 w2 H) as [Hr Hw].
  unfold result, exec, bind in *.
  destruct (m w1) as [[a1 | e1] v1], (m w2) as [[a2 | e2] v2];
    simpl in *; try discriminate.
  - injection Hr as <-. apply (Hk a1 v1 v2 Hw).
  - injection Hr as <-. split; [reflexivity | exact Hw].
Qed.

Lemma alike_try_catch {A} (body : M A) (handler : Exn -> M A) :
  alike R body -> (forall e, alike R (handler e)) ->
  alike R (try_catch body handler).
Proof.
  intros Hb Hh w1 w2 H. destruct (Hb w1 w2 H) as [Hr Hw].
  unfold result, exec, try_catch in *.
  destruct (body w1) as [[a1 | e1] v1], (body w2) as [[a2 | e2] v2];
    simpl in *; try discriminate.
  - split; [exact Hr | exact Hw].
  - injection Hr as <-. apply (Hh e1 v1 v2 Hw).
Qed.

Lemma alike_forEach {A} (f : A -> M unit) (l : list A) :
  (forall x, alike R (f x)) -> alike R (forEach f l).
Proof.
  intros Hf. induction l as [| x l IH]; simpl.
  - apply alike_ret.
  - apply alike_bind; [apply Hf | intros _; exact IH].
Qed.

End AlikeRules.

Section NonInterference.
Context {P : Platform}.
Variables ca cb : list Call.

Lemma same_await_pc {A} (c : Call)
    (method : RTCPeerConnection -> (PlatformError + A) * RTCPeerConnection) :
  alike (same_negotiation ca cb) (WebRTCManager.await_pc c method).
Proof.
  intros w1 w2 (Hpc & Hws & tr & H1 & H2).
  unfold result, exec, WebRTCManager.await_pc. rewrite <- Hpc.
  destruct (peerConnection w1) as [pc |] eqn:E.
  - destruct (method pc) as [[e | a] pc1]; simpl;
      (split; [reflexivity |]);
      (split; [reflexivity | split; [exact Hws |]]);
      exists (tr ++ [c])%list; rewrite H1, H2, !app_assoc; split; reflexivity.
  - simpl. split; [reflexivity |].
    split; [congruence | split; [exact Hws |]]. exists tr. split; assumption.
Qed.

Lemma same_sendSignaling (m : SignalingMessage) :
  alike (same_negotiation ca cb) (WebSocketManager.sendSignaling m).
Proof.
  intros w1 w2 (Hpc & Hws & tr & H1 & H2).
  unfold result, exec. rewrite !sendSignaling_spec. rewrite <- Hws. simpl.
  split; [reflexivity |].
  destruct (signalingWs w1) as [ws |] eqn:E.
  - destruct (ReadyState_eqb (readyState ws) OPEN).
    + split; [exact Hpc | split; [reflexivity |]].
      exists (tr ++ [WsSend Signaling (TextFrame m)])%list.
      simpl. rewrite H1, H2, !app_assoc. split; reflexivity.
    + split; [exact Hpc | split; [congruence |]]. exists tr. split; assumption.
  - split; [exact Hpc | split; [congruence |]]. exists tr. split; assumption.
Qed.

(** A step that touches neither the peer connection, nor the signalling
    socket, nor the trace. *)
Local Ltac same_leaf :=
  intros ? ? (? & ? & ? & ? & ?);
  split; [assumption | split; [assumption |]];
  eexists; split; eassumption.

Local Ltac same :=
  repeat first
    [ apply same_await_pc
    | apply same_sendSignaling
    | apply alike_ret
    | apply alike_throw
    | apply alike_bind
    | apply alike_try_catch
    | apply alike_gets; intros ? ? (? & ? & ?); assumption
    | apply alike_modify; same_leaf
    | match goal with
      | |- alike _ (match ?x with _ => _ end) => destruct x
      end
    | intros ? ].

Lemma same_handleSignalingMessage (room : string) (m : SignalingMessage) :
  alike (same_negotiation ca cb) (VideoCall.handleSignalingMessage room m).
Proof.
  unfold VideoCall.handleSignalingMessage,
    WebRTCManager.createOffer, WebRTCManager.createAnswer,
    WebRTCManager.setRemoteDescription, WebRTCManager.addIceCandidate,
    VideoCall.setIsConnected, VideoCall.setConnectionStatus, VideoCall.toast,
    console_write.
  same.
Qed.

End NonInterference.

Section NonInterferenceTheorem.
Context {P : Platform}.

(** X16. Negotiation does not depend on the rest of the page.  Two sessions
    that hold the same peer connection and the same signalling socket
    handle any sequence of envelopes alike, whatever their captions,
    console, toasts, indicators, local stream and captions socket are: they
    make the same platform calls in the same order and end with the same
    peer connection and the same signalling socket (hence the same frames
    sent). *)
Theorem negotiation_ignores_the_page
    (room : string) (messages : list SignalingMessage) (w1 w2 : World) :
  peerConnection w1 = peerConnection w2 ->
  signalingWs w1 = signalingWs w2 ->
  let run := forEach (VideoCall.handleSignalingMessage room) messages in
  calls_of run w1 = calls_of run w2 /\
  peerConnection (exec run w1) = peerConnection (exec run w2) /\
  signalingWs (exec run w1) = signalingWs (exec run w2).
Proof.
  intros Hpc Hws run.
  assert (H0 : same_negotiation (calls w1) (calls w2) w1 w2).
  { split; [exact Hpc | split; [exact Hws |]].
    exists []. rewrite !app_nil_r. split; reflexivity. }
  destruct (alike_forEach _ (VideoCall.handleSignalingMessage room) messages
              (same_handleSignalingMessage (calls w1) (calls w2) room)
              w1 w2 H0) as (_ & H1 & H2 & tr & H3 & H4).
  fold run in H1, H2, H3, H4.
  split; [| split; assumption].
  rewrite (calls_of_app run w1 tr H3), (calls_of_app run w2 tr H4). reflexivity.
Qed.

End NonInterferenceTheorem.

(** ** What leaves the browser *)

Section Outbound_frames.
Context {P : Platform}.
Variable room : string.

Lemma outbound_same (w w' : World) :
  signalingWs w' = signalingWs w -> captionsWs w' = captionsWs w ->
  outbound room w w'.
Proof.
  intros Hs Hc. unfold outbound. rewrite Hs, Hc. split; [reflexivity |].
  destruct (signalingWs w) as [ws |]; [| exact I].
  exists []. split; [symmetry; apply app_nil_r | reflexivity].
Qed.

Lemma outbound_refl (w : World) : outbound room w w.
Proof. apply outbound_same; reflexivity. Qed.

Lemma outbound_trans (a b c : World) :
  outbound room a b -> outbound room b c -> outbound room a c.
Proof.
  unfold outbound. intros [H1 H2] [K1 K2]. split; [congruence |].
  destruct (signalingWs a) as [x |], (signalingWs b) as [y |],
    (signalingWs c) as [z |]; try tauto.
  destruct H2 as (f1 & H2 & H2'), K2 as (f2 & K2 & K2').
  exists (f1 ++ f2)%list. split.
  - rewrite K2, H2, app_assoc. reflexivity.
  - rewrite forallb_app, H2', K2'. reflexivity.
Qed.

Lemma outbound_await_pc {A} (c : Call)
    (method : RTCPeerConnection -> (PlatformError + A) * RTCPeerConnection) :
  keeps (outbound room) (WebRTCManager.await_pc c method).
Proof.
  intros w. unfold exec, WebRTCManager.await_pc.
  destruct (peerConnection w) as [pc |]; [| apply outbound_refl].
  destruct (method pc) as [[e | a] pc1]; apply outbound_same; reflexivity.
Qed.

Lemma outbound_sendSignaling (t : MessageType) (d : JSValue) :
  keeps (outbound room) (WebSocketManager.sendSignaling (mkMessage t room d)).
Proof.
  intros w. unfold exec. rewrite sendSignaling_spec. simpl.
  destruct (signalingWs w) as [ws |] eqn:Hws; [| apply outbound_refl].
  destruct (ReadyState_eqb (readyState ws) OPEN); [| apply outbound_refl].
  unfold outbound; simpl. rewrite Hws. split; [reflexivity |].
  exists [TextFrame (mkMessage t room d)]. split; [reflexivity |].
  simpl. rewrite String.eqb_refl. reflexivity.
Qed.

Lemma outbound_socket_state (ch : Channel) (s : ReadyState) :
  keeps (outbound room)
    (modify (fun w =>
       WebSocketManager.set_socket ch
         (option_map (fun ws => mkWebSocket (url ws) s (sent ws))
            (WebSocketManager.socket ch w)) w)).
Proof.
  intros w. unfold exec, modify, outbound; simpl.
  destruct ch; simpl.
  - split; [reflexivity |].
    destruct (signalingWs w) as [ws |]; simpl; [| exact I].
    exists []. split; [symmetry; apply app_nil_r | reflexivity].
  - split; [destruct (captionsWs w); reflexivity |].
    destruct (signalingWs w) as [ws |]; simpl; [| exact I].
    exists []. split; [symmetry; apply app_nil_r | reflexivity].
Qed.

Lemma outbound_cleanup : keeps (outbound room) VideoCall.cleanup.
Proof.
  intros w. unfold exec. rewrite VideoCall_cleanup_spec.
  unfold outbound; simpl. split.
  - destruct (captionsWs w) as [[u [] s] |]; reflexivity.
  - destruct (signalingWs w) as [[u [] s] |]; simpl; try exact I;
      exists []; split; try reflexivity; symmetry; apply app_nil_r.
Qed.

Local Ltac outbound_steps :=
  repeat first
    [ apply outbound_await_pc
    | apply outbound_sendSignaling
    | apply outbound_socket_state
    | apply (keeps_ret _ outbound_refl)
    | apply (keeps_throw _ outbound_refl)
    | apply (keeps_gets _ outbound_refl)
    | apply (keeps_bind _ outbound_trans)
    | apply (keeps_try_catch _ outbound_trans)
    | apply keeps_modify; intros ?; apply outbound_same; reflexivity
    | match goal with
      | |- keeps _ (match ?x with _ => _ end) => destruct x
      end
    | intros ? ].

Lemma outbound_handle (e : Component.Event) :
  keeps (outbound room) (Component.handle room e).
Proof.
  destruct e as [[] | [] | [] error | [m | raw] | [c | raw] | [c |] | []
                 | state | b | b | |]; simpl Component.handle.
  18: apply outbound_cleanup.
  18: { apply (keeps_bind _ outbound_trans); [apply outbound_cleanup |].
        intros _. apply keeps_modify. intros w.
        apply outbound_same; reflexivity. }
  all: unfold WebSocketManager.established, WebSocketManager.terminated,
      WebSocketManager.signaling_onopen, WebSocketManager.captions_onopen,
      WebSocketManager.signaling_onclose, WebSocketManager.captions_onclose,
      WebSocketManager.signaling_onerror, WebSocketManager.captions_onerror,
      VideoCall.signaling_message, VideoCall.captions_message,
      WebSocketManager.signaling_onmessage, WebSocketManager.captions_onmessage,
      JSON_parse, VideoCall.handleCaption, VideoCall.setCaptions,
      VideoCall.handleSignalingMessage,
      WebRTCManager.createOffer, WebRTCManager.createAnswer,
      WebRTCManager.setRemoteDescription, WebRTCManager.addIceCandidate,
      VideoCall.setIsConnected, VideoCall.setConnectionStatus, VideoCall.toast,
      PeerConnectionEvents.local_candidate, PeerConnectionEvents.onicecandidate,
      PeerConnectionEvents.remote_track, PeerConnectionEvents.ontrack,
      PeerConnectionEvents.oniceconnectionstatechange,
      VideoCall.onIceCandidate, VideoCall.onTrack,
      WebRTCManager.toggleAudio, WebRTCManager.toggleVideo, console_write;
    outbound_steps.
Qed.

(** X17. What leaves the browser.  Whatever events reach the component,
    the program sends nothing on the captions socket (no handler calls
    [sendAudioChunk]), and every frame it sends on the signalling socket is
    an envelope that carries the [roomId] of the session, whatever room the
    inbound envelopes name.  So from the first render, through
    [initializeCall] and any events, the captions socket has sent nothing
    and the signalling socket has sent envelopes of the room only. *)
Theorem only_room_envelopes_leave
    (url : string) (getUserMedia : PlatformError + MediaStream)
    (events : list Component.Event) :
  (forall w, outbound room w
               (run_events (map (Component.handle room) events) w)) /\
  (let w0 := exec (VideoCall.initializeCall room getUserMedia) (initial_world url) in
   let w' := run_events (map (Component.handle room) events) w0 in
   sent_on Captions w' = [] /\
   forallb (for_room room) (sent_on Signaling w') = true).
Proof.
  assert (Hrun : forall w, outbound room w
                   (run_events (map (Component.handle room) events) w)).
  { intros w. apply (keeps_run_events _ outbound_refl outbound_trans).
    apply Forall_forall. intros h Hh. apply in_map_iff in Hh.
    destruct Hh as (e & <- & _). apply outbound_handle. }
  split; [exact Hrun |].
  intros w0 w'. specialize (Hrun w0). fold w' in Hrun.
  destruct Hrun as [Hc Hs]. unfold sent_on; simpl.
  assert (H0 : (captionsWs w0 = None /\ signalingWs w0 = None) \/
               (exists a b, captionsWs w0 = Some a /\ sent a = [] /\
                            signalingWs w0 = Some b /\ sent b = [])).
  { unfold w0. destruct getUserMedia as [e | stream].
    - left. split; reflexivity.
    - right. unfold exec. rewrite initializeCall_granted_run.
      do 2 eexists. repeat split. }
  destruct H0 as [[H1 H2] | (a & b & H1 & H1' & H2 & H2')].
  - rewrite H1 in Hc. rewrite H2 in Hs.
    destruct (captionsWs w'); [discriminate |].
    destruct (signalingWs w'); [contradiction |]. split; reflexivity.
  - rewrite H1 in Hc. rewrite H2 in Hs.
    destruct (captionsWs w') as [a' |]; [| discriminate].
    destruct (signalingWs w') as [b' |]; [| contradiction].
    simpl in Hc. injection Hc as Hc. rewrite Hc, H1'.
    destruct Hs as (fs & -> & Hfs). rewrite H2'. simpl.
    split; [reflexivity | exact Hfs].
Qed.

End Outbound_frames.

(** * More runs of the call of [Scenario] *)

Section MoreRuns.

#[local] Existing Instance W3C.platform.
Import Scenario.

(** X5 on the ready call: two candidates and the end of gathering. *)
Lemma local_candidates_relayed_in_order_witness :
  is_open Signaling ready = true /\
  sent_on Signaling
    (run_events
       (map (PeerConnectionEvents.local_candidate room)
          [Some candidate1; Some candidate2; None]) ready) =
    [TextFrame (mkMessage JoinRoom room undefined);
     TextFrame (mkMessage IceCandidate room candidate1);
     TextFrame (mkMessage IceCandidate room candidate2)].
Proof.
  split; [reflexivity |].
  destruct (local_candidates_relayed_in_order room
              [Some candidate1; Some candidate2; None] ready eq_refl)
    as (Hsent & _).
  exact Hsent.
Defined.

(** X6 on the ready call and on the call whose sockets are connecting. *)
Lemma audio_chunks_sent_in_order_witness :
  (is_open Captions ready = true /\
   sent_on Captions
     (exec (forEach WebSocketManager.sendAudioChunk ["chunk-1"; "chunk-2"]) ready) =
     [BinaryFrame "chunk-1"; BinaryFrame "chunk-2"]) /\
  (is_open Captions started = false /\
   forEach WebSocketManager.sendAudioChunk ["chunk-1"; "chunk-2"] started =
     (Normal tt, started)).
Proof.
  split; (split; [reflexivity |]).
  - destruct (audio_chunks_sent_in_order ["chunk-1"; "chunk-2"] ready)
      as (Hopen & _).
    destruct (Hopen eq_refl) as (_ & Hsent & _). exact Hsent.
  - destruct (audio_chunks_sent_in_order ["chunk-1"; "chunk-2"] started)
      as (_ & Hdrop).
    apply Hdrop. reflexivity.
Defined.

(** X7 on the ready call: the peer joins and the offer goes out. *)
Lemma peer_joined_offered_once_witness :
  let joined := mkMessage PeerJoined room undefined in
  type joined = PeerJoined /\
  calls_of (VideoCall.handleSignalingMessage room joined) ready =
    [PcCreateOffer;
     PcSetLocalDescription (W3C.VDescription W3C.sdp_offer "v=0 offer");
     WsSend Signaling
       (TextFrame
          (mkMessage Offer room (W3C.VDescription W3C.sdp_offer "v=0 offer")))].
Proof.
  intros joined. split; [reflexivity |].
  destruct (peer_joined_offered_once room joined ready eq_refl)
    as (_ & _ & Hfull).
  destruct (Hfull _ _ _ _ _ eq_refl eq_refl eq_refl eq_refl eq_refl)
    as (Hcalls & _).
  exact Hcalls.
Defined.

(** X8 between two ready calls of the room. *)
Lemma handshake_carries_the_blobs_witness :
  let joined := mkMessage PeerJoined room undefined in
  let o := W3C.VDescription W3C.sdp_offer "v=0 offer" in
  let a := W3C.VDescription W3C.sdp_answer "v=0 answer" in
  let wA1 := exec (VideoCall.handleSignalingMessage room joined) ready in
  let wB1 := exec (VideoCall.signaling_message room (json (mkMessage Offer room o)))
               ready in
  let wA2 := exec (VideoCall.signaling_message room (json (mkMessage Answer room a)))
               wA1 in
  type joined = PeerJoined /\
  option_map W3C.signalingState (peerConnection wA2) = Some W3C.stable /\
  option_map W3C.signalingState (peerConnection wB1) = Some W3C.stable /\
  option_map W3C.remoteDescription (peerConnection wB1) =
    Some (Some (W3C.sdp_offer, "v=0 offer")) /\
  option_map W3C.remoteDescription (peerConnection wA2) =
    Some (Some (W3C.sdp_answer, "v=0 answer")) /\
  sent_on Signaling wA2 =
    [TextFrame (mkMessage JoinRoom room undefined);
     TextFrame (mkMessage Offer room o)] /\
  sent_on Signaling wB1 =
    [TextFrame (mkMessage JoinRoom room undefined);
     TextFrame (mkMessage Answer room a)].
Proof.
  intros joined o a wA1 wB1 wA2. split; [reflexivity |].
  destruct (handshake_carries_the_blobs room joined ready ready
              _ _ _ _ _ _ _ _ o a _ _
              eq_refl eq_refl eq_refl eq_refl eq_refl eq_refl eq_refl
              eq_refl eq_refl eq_refl eq_refl eq_refl eq_refl)
    as (HsA1 & HsB & HsA2 & _ & _ & HpA & HpB & _).
  fold wA1 wB1 wA2 in HsA1, HsB, HsA2, HpA, HpB.
  rewrite HpA, HpB, HsA2, HsA1, HsB. repeat split.
Defined.

(** X9 on the call torn down from the ready call. *)
Lemma nothing_happens_after_cleanup_witness :
  type remote_offer <> PeerLeft /\ type remote_offer <> JoinRoom /\
  VideoCall.handleSignalingMessage room remote_offer torn_down =
    (Normal tt,
     set_console
       (console torn_down ++
        [console_error "Error handling signaling message:" not_initialized])
       torn_down) /\
  PeerConnectionEvents.local_candidate room (Some candidate1) torn_down =
    (Normal tt, torn_down).
Proof.
  split; [discriminate |]. split; [discriminate |].
  destruct (nothing_happens_after_cleanup room remote_offer "chunk-1"
              (Some candidate1) ready) as (Hlog & _ & _ & Hdrop).
  split; [apply Hlog; discriminate | exact Hdrop].
Defined.

(** X11 on the ready call (microphone and camera) and before the call
    starts (no stream). *)
Lemma toggle_touches_its_kind_only_witness :
  (localStream first_render = None /\
   exec (WebRTCManager.toggleAudio false) first_render = first_render) /\
  (localStream ready = Some [mic; cam] /\
   exists sa,
     localStream (exec (WebRTCManager.toggleAudio false) ready) = Some sa /\
     map track_id sa = [0; 1] /\
     Forall (fun t => kind t = audio -> enabled t = false) sa).
Proof.
  split; (split; [reflexivity |]).
  - destruct (toggle_touches_its_kind_only false first_render)
      as (_ & _ & _ & _ & Hnone & _).
    apply (Hnone eq_refl).
  - destruct (toggle_touches_its_kind_only false ready)
      as (_ & _ & _ & _ & _ & Hsome).
    destruct (Hsome _ eq_refl) as (sa & sv & Ha & _ & Hids & _ & _ & _ & _ & _ & Hflag & _).
    exists sa. split; [exact Ha | split; [exact Hids | exact Hflag]].
Defined.

(** X13 on the ready call, where the tracks and the flags are all on. *)
Lemma button_pressed_twice_witness :
  (forall stream, localStream ready = Some stream ->
     Forall (fun t => kind t = audio ->
                      enabled t = Controls.isAudioEnabled Controls.initial)
       stream) /\
  exec (s1 <- Controls.toggleAudio Controls.initial ;; Controls.toggleAudio s1)
    ready = ready /\
  (forall stream, localStream ready = Some stream ->
     Forall (fun t => kind t = video ->
                      enabled t = Controls.isVideoEnabled Controls.initial)
       stream) /\
  exec (s1 <- Controls.toggleVideo Controls.initial ;; Controls.toggleVideo s1)
    ready = ready.
Proof.
  assert (Ha : forall stream, localStream ready = Some stream ->
            Forall (fun t => kind t = audio ->
                             enabled t = Controls.isAudioEnabled Controls.initial)
              stream).
  { intros stream Hs. injection Hs as <-. repeat constructor. }
  assert (Hv : forall stream, localStream ready = Some stream ->
            Forall (fun t => kind t = video ->
                             enabled t = Controls.isVideoEnabled Controls.initial)
              stream).
  { intros stream Hs. injection Hs as <-. repeat constructor. }
  destruct (button_pressed_twice Controls.initial ready)
    as (_ & _ & _ & _ & Haudio & Hvideo & _).
  split; [exact Ha |]. split; [exact (Haudio Ha) |].
  split; [exact Hv | exact (Hvideo Hv)].
Defined.

(** X16: the ready call, and the same call after a caption and a
    ['peer-left'] envelope, handle an offer and a candidate alike. *)
Lemma negotiation_ignores_the_page_witness :
  let busy :=
    exec (VideoCall.handleCaption (caption "Remote" "Hola" 1) ;;
          VideoCall.handleSignalingMessage room (mkMessage PeerLeft room undefined))
      ready in
  let run := forEach (VideoCall.handleSignalingMessage room)
               [remote_offer; ice room candidate1] in
  peerConnection ready = peerConnection busy /\
  signalingWs ready = signalingWs busy /\
  busy <> ready /\
  calls_of run ready = calls_of run busy.
Proof.
  intros busy run.
  split; [reflexivity |]. split; [reflexivity |].
  split; [intros H; apply (f_equal captions) in H; discriminate H |].
  destruct (negotiation_ignores_the_page room
              [remote_offer; ice room candidate1] ready busy eq_refl eq_refl)
    as (Hcalls & _).
  exact Hcalls.
Defined.

End MoreRuns.
